(** * oslo.messaging instrumentation: client and server call bridges

    A shallow embedding of
    [opentelemetry/instrumentation/oslomessaging/__init__.py]:
    the client wrapper built by [_wrap_client_method], the carrier
    injection [_inject_trace_context], the server wrapper built by
    [_wrap_server_process_incoming], and the install / uninstall pair
    [_instrument] / [_uninstrument].

    Python values live in a store of mutable objects, so that aliasing of
    dicts is visible.  Effects (store updates, span operations, calls of
    the wrapped operation, raised exceptions) are threaded through a small
    state-and-exception monad. *)

From Stdlib Require Import ZArith String List Bool DecimalString.
From stdpp Require Import base option list gmap strings.

Local Open Scope string_scope.
Local Open Scope Z_scope.
Local Open Scope list_scope.

(** ** Exceptions *)

(** The part of Python's exception hierarchy the module distinguishes:
    [except Exception] and [except (TypeError, ValueError)]. *)
Inductive exc_class :=
| BaseException_
| Exception_
| TypeError
| ValueError
| AttributeError
| KeyError
| RuntimeError
| TimeoutError
| KeyboardInterrupt
| SystemExit
| GeneratorExit
| Subclass (name : string) (base : exc_class).

#[global] Instance exc_class_eq_dec : EqDecision exc_class.
Proof. solve_decision. Defined.

(** The base classes of a class, itself first (its MRO). *)
Fixpoint mro (c : exc_class) : list exc_class :=
  c :: match c with
       | BaseException_ => []
       | Exception_ | KeyboardInterrupt | SystemExit | GeneratorExit =>
           [BaseException_]
       | Subclass _ b => mro b
       | _ => [Exception_; BaseException_]
       end.

(** An exception object: its class, and a payload that tells two objects
    of one class apart. *)
Record exn := Exn { exc_type : exc_class; exc_args : string }.

#[global] Instance exn_eq_dec : EqDecision exn.
Proof. solve_decision. Defined.

(** [isinstance(e, c)] *)
Definition isinstance (e : exn) (c : exc_class) : bool :=
  bool_decide (c ∈ mro (exc_type e)).

(** ** Values and the object store *)

Abbreviation loc := nat.

Inductive value :=
| VNone
| VBool (b : bool)
| VInt (z : Z)
| VStr (s : string)
| VRef (l : loc).

#[global] Instance value_eq_dec : EqDecision value.
Proof. solve_decision. Defined.

Inductive result (A : Type) :=
| Ok (a : A)
| Raise (e : exn).
Arguments Ok {A} a.
Arguments Raise {A} e.

(** What calling [obj.to_dict()] does. *)
Inductive to_dict_impl :=
| ToDictNew (d : gmap string value)   (* builds a new dict on every call *)
| ToDictReturn (v : value)            (* returns a value it already holds *)
| ToDictRaise (e : exn).

(** An object other than a plain dict, described by how it answers the
    operations the bridge applies to a call context. *)
Record pyobj := PyObj {
  ob_truth : bool;                        (* bool(obj) *)
  ob_to_dict : option to_dict_impl;       (* None: no [to_dict] attribute *)
  ob_has_get : bool;                      (* hasattr(obj, "get") *)
  ob_dict : result (gmap string value);   (* dict(obj) *)
  ob_setitem : bool                       (* obj[key] = value is accepted *)
}.

Inductive hobj :=
| HDict (d : gmap string value)
| HObj (o : pyobj).

Abbreviation heap := (list hobj).

(** ** Tracing collaborators *)

Inductive SpanKind := CLIENT | SERVER.
Inductive StatusCode := UNSET | ERROR.

Record SpanContext := { trace_id : N; span_id : N }.

#[global] Instance SpanContext_eq_dec : EqDecision SpanContext.
Proof. solve_decision. Defined.

(** A trace context: the span it carries, if any. *)
Definition Context := option SpanContext.

(** The calls made on the tracer and on the span it hands out.
    [OpStart]'s [context] is the [context=] argument as passed: [None]
    when the caller supplies no parent. *)
Inductive span_op :=
| OpStart (name : string) (kind : SpanKind) (context : option Context)
| OpSetAttribute (key : string) (v : value)
| OpRecordException (e : exn)
| OpSetStatus (s : StatusCode)
| OpEnd.

(** The global propagator behind [inject] and [extract].
    [p_inject] gives the fields written into the carrier for a context;
    [p_extract] reads whatever value it is handed. *)
Record Propagator := {
  p_inject : Context -> result (gmap string value);
  p_extract : heap -> value -> result Context
}.

(** The receiver of a wrapped method; [self_target] is its [target]
    attribute when it has one. *)
Record receiver := { self_target : option value }.

(** An incoming message; a field is [None] when the attribute is missing. *)
Record Incoming := { inc_ctxt : option value; inc_message : option value }.

(** Invocations of the wrapped operations. *)
Inductive call_record :=
| CallClient (self : receiver) (ctxt method : value) (kwargs : gmap string value)
| CallServer (self : receiver) (incoming : Incoming).

Record world := World {
  w_heap : heap;
  w_active : Context;          (* the current trace context *)
  w_next_id : N;               (* id generator of the tracer *)
  w_spans : list span_op;
  w_calls : list call_record
}.

(** ** The monad *)

Definition M (A : Type) := world -> result A * world.

Definition ret {A} (a : A) : M A := fun w => (Ok a, w).
Definition raise {A} (e : exn) : M A := fun w => (Raise e, w).
Definition bind {A B} (m : M A) (k : A -> M B) : M B :=
  fun w => match m w with
           | (Ok a, w') => k a w'
           | (Raise e, w') => (Raise e, w')
           end.

#[global] Instance M_ret : MRet M := @ret.
#[global] Instance M_bind : MBind M := fun A B k m => bind m k.

(** [try: m except c as e: h e] for a tuple [cs] of classes. *)
Definition try_except {A} (m : M A) (cs : list exc_class) (h : exn -> M A) : M A :=
  fun w => match m w with
           | (Ok a, w') => (Ok a, w')
           | (Raise e, w') =>
               if existsb (isinstance e) cs then h e w' else (Raise e, w')
           end.

(** [try: m finally: f] *)
Definition finally {A} (m : M A) (f : world -> world) : M A :=
  fun w => let '(r, w') := m w in (r, f w').

Definition lift_result {A} (r : result A) : M A := fun w => (r, w).

Definition get_world : M world := fun w => (Ok w, w).
Definition get_heap : M heap := fun w => (Ok (w_heap w), w).
Definition set_heap (h : heap) : M unit :=
  fun w => (Ok tt, World h (w_active w) (w_next_id w) (w_spans w) (w_calls w)).
Definition log_span (op : span_op) : world -> world :=
  fun w => World (w_heap w) (w_active w) (w_next_id w) (w_spans w ++ [op]) (w_calls w).
Definition log_call (c : call_record) : world -> world :=
  fun w => World (w_heap w) (w_active w) (w_next_id w) (w_spans w) (w_calls w ++ [c]).
Definition set_active (c : Context) : world -> world :=
  fun w => World (w_heap w) c (w_next_id w) (w_spans w) (w_calls w).
Definition act (f : world -> world) : M unit := fun w => (Ok tt, f w).

(** ** Python operations on values *)

(** A new object; its location is the next free one. *)
Definition alloc (o : hobj) : M value :=
  fun w => (Ok (VRef (length (w_heap w))),
            World (w_heap w ++ [o]) (w_active w) (w_next_id w) (w_spans w) (w_calls w)).

(** [bool(v)] *)
Definition truthy (h : heap) (v : value) : bool :=
  match v with
  | VNone => false
  | VBool b => b
  | VInt z => negb (z =? 0)
  | VStr s => negb (String.eqb s EmptyString)
  | VRef l => match h !! l with
              | Some (HDict d) => negb (bool_decide (d = ∅))
              | Some (HObj o) => ob_truth o
              | None => true
              end
  end.

(** [hasattr(v, "to_dict")] *)
Definition hasattr_to_dict (h : heap) (v : value) : bool :=
  match v with
  | VRef l => match h !! l with
              | Some (HObj o) => bool_decide (is_Some (ob_to_dict o))
              | _ => false
              end
  | _ => false
  end.

(** [hasattr(v, "get")]: dicts have it, the atoms do not. *)
Definition hasattr_get (h : heap) (v : value) : bool :=
  match v with
  | VRef l => match h !! l with
              | Some (HDict _) => true
              | Some (HObj o) => ob_has_get o
              | None => false
              end
  | _ => false
  end.

Definition type_error (msg : string) : exn := Exn TypeError msg.

(** [v.to_dict()] *)
Definition call_to_dict (v : value) : M value :=
  h ← get_heap;
  match v with
  | VRef l => match h !! l with
              | Some (HObj o) =>
                  match ob_to_dict o with
                  | Some (ToDictNew d) => alloc (HDict d)
                  | Some (ToDictReturn r) => ret r
                  | Some (ToDictRaise e) => raise e
                  | None => raise (Exn AttributeError "to_dict")
                  end
              | _ => raise (Exn AttributeError "to_dict")
              end
  | _ => raise (Exn AttributeError "to_dict")
  end.

(** The items [dict(v)] collects, or the exception it raises: a dict and a
    mapping-like object give their items; [None], booleans and integers are
    not iterable; a non-empty string iterates over one-character strings,
    which are not key/value pairs. *)
Definition dict_items (h : heap) (v : value) : result (gmap string value) :=
  match v with
  | VRef l => match h !! l with
              | Some (HDict d) => Ok d
              | Some (HObj o) => ob_dict o
              | None => Raise (type_error "object is not iterable")
              end
  | VStr s => if String.eqb s EmptyString then Ok ∅
              else Raise (Exn ValueError "dictionary update sequence element #0 has length 1; 2 is required")
  | _ => Raise (type_error "object is not iterable")
  end.

(** [dict(v)]: always a new dict. *)
Definition py_dict (v : value) : M value :=
  h ← get_heap;
  d ← lift_result (dict_items h v);
  alloc (HDict d).

(** An object that accepts [obj[key] = v] (an instance of a dict subclass,
    an OrderedDict, any mutable mapping) after the assignment: the entry
    is what [dict(obj)], [key in obj] and [obj[key]] then see. *)
Definition assign_item (o : pyobj) (key : string) (v : value) : pyobj :=
  {| ob_truth := ob_truth o; ob_to_dict := ob_to_dict o; ob_has_get := ob_has_get o;
     ob_dict := match ob_dict o with
                | Ok d => Ok (<[key := v]> d)
                | Raise e => Raise e
                end;
     ob_setitem := ob_setitem o |}.

(** [target[key] = v]: a dict and an object that accepts item assignment
    are updated in place; anything else does not support it. *)
Definition setitem (target : value) (key : string) (v : value) : M unit :=
  h ← get_heap;
  match target with
  | VRef l => match h !! l with
              | Some (HDict d) => set_heap (<[l := HDict (<[key := v]> d)]> h)
              | Some (HObj o) =>
                  if ob_setitem o
                  then set_heap (<[l := HObj (assign_item o key v)]> h)
                  else raise (type_error "object does not support item assignment")
              | None => raise (type_error "object does not support item assignment")
              end
  | _ => raise (type_error "object does not support item assignment")
  end.

(** [key in v] *)
Definition py_contains (key : string) (v : value) : M bool :=
  h ← get_heap;
  match v with
  | VRef l => match h !! l with
              | Some (HDict d) => ret (bool_decide (is_Some (d !! key)))
              | Some (HObj o) =>
                  match ob_dict o with
                  | Ok d => ret (bool_decide (is_Some (d !! key)))
                  | Raise _ => raise (type_error "argument is not iterable")
                  end
              | None => raise (type_error "argument is not iterable")
              end
  | VStr s => ret (bool_decide (is_Some (String.index 0 key s)))
  | _ => raise (type_error "argument is not iterable")
  end.

(** [v[key]] *)
Definition getitem (v : value) (key : string) : M value :=
  h ← get_heap;
  match v with
  | VRef l => match h !! l with
              | Some (HDict d) =>
                  match d !! key with
                  | Some x => ret x
                  | None => raise (Exn KeyError key)
                  end
              | Some (HObj o) =>
                  match ob_dict o with
                  | Ok d => match d !! key with
                            | Some x => ret x
                            | None => raise (Exn KeyError key)
                            end
                  | Raise _ => raise (type_error "object is not subscriptable")
                  end
              | None => raise (type_error "object is not subscriptable")
              end
  | _ => raise (type_error "indices must be integers")
  end.

(** [v.get(key, default)]: a dict looks the key up; an object that has
    [get] answers from its mapping contents; anything else has no [get]. *)
Definition py_get (v : value) (key : string) (dflt : value) : M value :=
  h ← get_heap;
  match v with
  | VRef l => match h !! l with
              | Some (HDict d) => ret (default dflt (d !! key))
              | Some (HObj o) =>
                  if ob_has_get o
                  then d ← lift_result (ob_dict o); ret (default dflt (d !! key))
                  else raise (Exn AttributeError "get")
              | None => raise (Exn AttributeError "get")
              end
  | _ => raise (Exn AttributeError "get")
  end.

(** [str(v)], as an f-string formats a value.  The text of a container or
    of an object is not modelled: every reference formats alike. *)
Definition py_str (v : value) : string :=
  match v with
  | VNone => "None"
  | VBool true => "True"
  | VBool false => "False"
  | VInt z => NilZero.string_of_int (Z.to_int z)
  | VStr s => s
  | VRef _ => "<object>"
  end.

(** [getattr(self, "target", None)] *)
Definition getattr_target (self : receiver) : value :=
  default VNone (self_target self).

(** ** Tracer and propagator *)

(** The context of a span started under [parent]: it joins the parent's
    trace, or opens a new one. *)
Definition new_span_context (parent : Context) (n : N) : SpanContext :=
  {| trace_id := match parent with Some p => trace_id p | None => n end;
     span_id := (n + 1)%N |}.

(** [with tracer.start_as_current_span(name, context=context, kind=kind)]:
    the span's parent is [context], or the current context when none is
    passed; the span is current inside the block, and is ended and the
    previous context restored on every exit.  The log holds what the
    wrappers ask of the tracer and the span, and the end of the span; what
    a tracer adds by itself when an exception leaves the block is its own
    business and is not logged. *)
Definition start_as_current_span {A} (name : string) (context : option Context)
    (kind : SpanKind) (body : M A) : M A :=
  fun w =>
    let parent := default (w_active w) context in
    let sc := new_span_context parent (w_next_id w) in
    let w1 := World (w_heap w) (Some sc) (w_next_id w + 2)%N
                (w_spans w ++ [OpStart name kind context]) (w_calls w) in
    finally body (fun w2 => set_active (w_active w) (log_span OpEnd w2)) w1.

Definition set_attribute (key : string) (v : value) : M unit :=
  act (log_span (OpSetAttribute key v)).
Definition record_exception (e : exn) : M unit :=
  act (log_span (OpRecordException e)).
Definition set_status (s : StatusCode) : M unit :=
  act (log_span (OpSetStatus s)).

Section Bridge.

(** The configured global propagator. *)
Variable P : Propagator.

(** [inject(carrier)]: write the current context's fields into [carrier]. *)
Definition inject (carrier : value) : M unit :=
  w ← get_world;
  fields ← lift_result (p_inject P (w_active w));
  match carrier with
  | VRef l => match w_heap w !! l with
              | Some (HDict d) => set_heap (<[l := HDict (fields ∪ d)]> (w_heap w))
              | _ => raise (type_error "object does not support item assignment")
              end
  | _ => raise (type_error "object does not support item assignment")
  end.

(** [extract(carrier)] *)
Definition extract (carrier : value) : M Context :=
  h ← get_heap;
  lift_result (p_extract P h carrier).

(** ** The wrapped operations *)

(** The wrapped operations are opaque: they read the store and their
    arguments, and return or raise. *)
Definition client_op :=
  heap -> receiver -> value -> value -> gmap string value -> result value.
Definition server_op := heap -> receiver -> Incoming -> result value.

(** A callable installed as a client method, or as [_process_incoming]. *)
Definition client_method :=
  receiver -> value -> value -> gmap string value -> M value.
Definition server_method := receiver -> Incoming -> M value.

Definition call_client (original : client_op) : client_method :=
  fun self ctxt method kwargs w => (original (w_heap w) self ctxt method kwargs,
            log_call (CallClient self ctxt method kwargs) w).

Definition call_server (original : server_op) : server_method :=
  fun self incoming w => (original (w_heap w) self incoming,
            log_call (CallServer self incoming) w).

(** ** Client side *)

Definition TRACE_CONTEXT_KEY : string := "_trace_context".

(** [_inject_trace_context(self, ctxt)] *)
Definition _inject_trace_context (ctxt : value) : M value :=
  carrier ← alloc (HDict ∅);
  inject carrier;;
  h ← get_heap;
  ctxt_dict ← (if hasattr_to_dict h ctxt then call_to_dict ctxt
               else if truthy h ctxt then py_dict ctxt
               else (empty ← alloc (HDict ∅); py_dict empty));
  setitem ctxt_dict TRACE_CONTEXT_KEY carrier;;
  mret ctxt_dict.

(** The handler of [except Exception as e] in both wrappers. *)
Definition on_exception (e : exn) : M value :=
  record_exception e;;
  set_status ERROR;;
  raise e.

(** [_wrap_client_method(original_method, tracer, method_name)]: the
    [wrapper(self, ctxt, method, **kwargs)] it returns, on a receiver for
    which [self._inject_trace_context] is the instrumentor's method, the
    one [_instrument_client] installs.  [client_wrapper_calling], further
    down, is the same wrapper with that lookup left open. *)
Definition _wrap_client_method (original_method : client_method)
    (method_name : string) : client_method :=
  fun self ctxt method kwargs =>
  start_as_current_span ("oslo_messaging.rpc." +:+ method_name) None CLIENT (
    set_attribute "rpc.method" method;;
    set_attribute "rpc.system" (VStr "oslo_messaging");;
    set_attribute "rpc.service" (getattr_target self);;
    h ← get_heap;
    ctxt ← (if negb (truthy h ctxt) then alloc (HDict ∅) else mret ctxt);
    ctxt ← _inject_trace_context ctxt;
    try_except (original_method self ctxt method kwargs)
      [Exception_] on_exception).

(** ** Server side *)

(** Lines 239-248 of the server wrapper: the incoming context as a dict,
    or [None]. *)
Definition normalize_incoming_ctxt (ctxt : value) : M value :=
  h ← get_heap;
  if hasattr_to_dict h ctxt then call_to_dict ctxt
  else if hasattr_get h ctxt then py_dict ctxt
  else if negb (bool_decide (ctxt = VNone)) then
    try_except (py_dict ctxt) [TypeError; ValueError] (fun _ => mret VNone)
  else mret VNone.

(** Lines 250-252: the parent context, when the reserved key is there. *)
Definition extract_parent (ctxt_dict : value) : M (option Context) :=
  h ← get_heap;
  if truthy h ctxt_dict then
    present ← py_contains TRACE_CONTEXT_KEY ctxt_dict;
    if present : bool then
      carrier ← getitem ctxt_dict TRACE_CONTEXT_KEY;
      ctx ← extract carrier;
      mret (Some ctx)
    else mret None
  else mret None.

(** [_wrap_server_process_incoming(original_method, tracer)]: the
    [wrapper(self, incoming)] it returns. *)
Definition _wrap_server_process_incoming (original_method : server_method)
    : server_method :=
  fun self incoming =>
  match inc_ctxt incoming, inc_message incoming with
  | Some ctxt, Some message =>
      ctxt_dict ← normalize_incoming_ctxt ctxt;
      ctx ← extract_parent ctxt_dict;
      method ← py_get message "method" (VStr "unknown");
      start_as_current_span ("oslo_messaging.rpc.server." +:+ py_str method) ctx SERVER (
        set_attribute "rpc.method" method;;
        set_attribute "rpc.system" (VStr "oslo_messaging");;
        set_attribute "rpc.service" (getattr_target self);;
        try_except (original_method self incoming)
          [Exception_] on_exception)
  | _, _ => original_method self incoming
  end.

End Bridge.

(** ** Spans as the tracer's backend would keep them *)

Record Span := {
  sp_name : string;
  sp_kind : SpanKind;
  sp_context : option Context;              (* the parent passed, if any *)
  sp_attributes : list (string * value);
  sp_exceptions : list exn;
  sp_status : StatusCode
}.

Definition span_apply (op : span_op) (s : Span) : Span :=
  match op with
  | OpSetAttribute k v =>
      {| sp_name := sp_name s; sp_kind := sp_kind s; sp_context := sp_context s;
         sp_attributes := sp_attributes s ++ [(k, v)];
         sp_exceptions := sp_exceptions s; sp_status := sp_status s |}
  | OpRecordException e =>
      {| sp_name := sp_name s; sp_kind := sp_kind s; sp_context := sp_context s;
         sp_attributes := sp_attributes s;
         sp_exceptions := sp_exceptions s ++ [e]; sp_status := sp_status s |}
  | OpSetStatus c =>
      {| sp_name := sp_name s; sp_kind := sp_kind s; sp_context := sp_context s;
         sp_attributes := sp_attributes s;
         sp_exceptions := sp_exceptions s; sp_status := c |}
  | _ => s
  end.

(** Replays a log of span operations: [open] are the spans started and not
    yet ended, innermost first; [ended] the ended ones, in order of ending. *)
Fixpoint replay (ops : list span_op) (open ended : list Span) : list Span :=
  match ops with
  | [] => ended
  | OpStart n k c :: r =>
      replay r ({| sp_name := n; sp_kind := k; sp_context := c; sp_attributes := [];
                   sp_exceptions := []; sp_status := UNSET |} :: open) ended
  | OpEnd :: r =>
      match open with
      | s :: o => replay r o (ended ++ [s])
      | [] => replay r [] ended
      end
  | op :: r =>
      match open with
      | s :: o => replay r (span_apply op s :: o) ended
      | [] => replay r [] ended
      end
  end.

Definition finished_spans (w : world) : list Span := replay (w_spans w) [] [].

(** ** Installation: [_instrument] and [_uninstrument] *)

(** What a class attribute can hold: something the library (or anyone
    else) defined, a wrapper built by this module with the callable it
    wraps, the instrumentor's bound [_inject_trace_context], or a wrapt
    [ObjectProxy] that other code installed around a callable. *)
Inductive attr :=
| Native (name : string)
| ClientWrapper (original : attr) (method_name : string)
| ServerWrapper (original : attr)
| InjectMethod
| Proxy (name : string) (wrapped : attr).

#[global] Instance attr_eq_dec : EqDecision attr.
Proof. solve_decision. Defined.

(** [a.__wrapped__], set by [functools.wraps] and kept by a wrapt proxy. *)
Definition __wrapped__ (a : attr) : option attr :=
  match a with
  | ClientWrapper o _ | ServerWrapper o | Proxy _ o => Some o
  | _ => None
  end.

(** The attributes of [oslo_messaging.rpc.client._BaseCallContext] and of
    [oslo_messaging.rpc.server.RPCServer]; [None] when the module cannot
    be imported. *)
Record modules := {
  rpc_client : option (gmap string attr);
  rpc_server : option (gmap string attr)
}.

Definition _RPC_CALL_METHODS : list string := ["cast"; "call"].

Definition _instrument_client (m : modules) : modules :=
  match rpc_client m with
  | None => m
  | Some original_base_call_context =>
      let cls :=
        foldl (fun (cls : gmap string attr) method_name =>
                 match cls !! method_name with
                 | Some original_method =>
                     <[method_name := ClientWrapper original_method method_name]> cls
                 | None => cls
                 end)
              original_base_call_context _RPC_CALL_METHODS in
      let cls :=
        if bool_decide (is_Some (cls !! "_inject_trace_context")) then cls
        else <["_inject_trace_context" := InjectMethod]> cls in
      {| rpc_client := Some cls; rpc_server := rpc_server m |}
  end.

(** [RPCServer._process_incoming] is read without a [hasattr] test, and
    only [ImportError] is caught. *)
Definition _instrument_server (m : modules) : result modules :=
  match rpc_server m with
  | None => Ok m
  | Some cls =>
      match cls !! "_process_incoming" with
      | Some original_process_incoming =>
          Ok {| rpc_client := rpc_client m;
                rpc_server :=
                  Some (<["_process_incoming" := ServerWrapper original_process_incoming]> cls) |}
      | None => Raise (Exn AttributeError "_process_incoming")
      end
  end.

Definition _instrument (m : modules) : result modules :=
  _instrument_server (_instrument_client m).

Section Uninstall.

(** [opentelemetry.instrumentation.utils.unwrap(obj, attr)], which this
    package imports; its source is not part of the package. *)
Variable unwrap : gmap string attr -> string -> gmap string attr.

Definition _uninstrument_client (m : modules) : modules :=
  match rpc_client m with
  | None => m
  | Some cls =>
      let cls :=
        foldl (fun (cls : gmap string attr) method_name =>
                 if bool_decide (is_Some (cls !! method_name))
                 then unwrap cls method_name else cls)
              cls _RPC_CALL_METHODS in
      let cls :=
        if bool_decide (is_Some (cls !! "_inject_trace_context"))
        then delete "_inject_trace_context" cls else cls in
      {| rpc_client := Some cls; rpc_server := rpc_server m |}
  end.

Definition _uninstrument_server (m : modules) : modules :=
  match rpc_server m with
  | None => m
  | Some cls =>
      {| rpc_client := rpc_client m;
         rpc_server :=
           Some (if bool_decide (is_Some (cls !! "_process_incoming"))
                 then unwrap cls "_process_incoming" else cls) |}
  end.

Definition _uninstrument (m : modules) : modules :=
  _uninstrument_server (_uninstrument_client m).

End Uninstall.

(** Modelled from the spec: the helper
    [opentelemetry.instrumentation.utils.unwrap] is missing from the
    sources at hand (only its import and its calls are there) and the spec
    does not describe it; it is modelled on what the helper is for in this
    repository, undoing [wrapt.wrap_function_wrapper].  An attribute that
    is a wrapt [ObjectProxy] is replaced by its [__wrapped__]; any other
    attribute, a [functools.wraps] closure included, is left in place. *)
Definition utils_unwrap (cls : gmap string attr) (name : string)
    : gmap string attr :=
  match cls !! name with
  | Some (Proxy _ o) => <[name := o]> cls
  | _ => cls
  end.

Definition not_callable {A} : M A := raise (type_error "not callable").

Section Behaviour.

Variable P : Propagator.
(** What the attributes defined outside this module do when called: the
    client methods, [_process_incoming], and a [_inject_trace_context] of
    the class's own. *)
Variable native_client : string -> client_op.
Variable native_server : string -> server_op.
Variable native_inject : string -> value -> M value.

(** The client wrapper of [_wrap_client_method], with the method that
    [self._inject_trace_context] resolves to as a parameter: the wrapper
    looks it up on the receiver at every call. *)
Definition client_wrapper_calling (inject_method : value -> M value)
    (original_method : client_method) (method_name : string) : client_method :=
  fun self ctxt method kwargs =>
  start_as_current_span ("oslo_messaging.rpc." +:+ method_name) None CLIENT (
    set_attribute "rpc.method" method;;
    set_attribute "rpc.system" (VStr "oslo_messaging");;
    set_attribute "rpc.service" (getattr_target self);;
    h ← get_heap;
    ctxt ← (if negb (truthy h ctxt) then alloc (HDict ∅) else mret ctxt);
    ctxt ← inject_method ctxt;
    try_except (original_method self ctxt method kwargs)
      [Exception_] on_exception).

(** [self._inject_trace_context] for a receiver whose class has the
    attributes [cls]: the instrumentor's method when that is installed,
    the class's own when it has one, AttributeError when there is none. *)
Definition inject_attribute (cls : gmap string attr) : value -> M value :=
  match cls !! "_inject_trace_context" with
  | Some InjectMethod => _inject_trace_context P
  | Some (Native n) | Some (Proxy n _) => native_inject n
  | Some (ClientWrapper _ _) | Some (ServerWrapper _) => fun _ => not_callable
  | None => fun _ => raise (Exn AttributeError "_inject_trace_context")
  end.

(** Calling an attribute of [_BaseCallContext], whose attributes are
    [cls], as a client method. *)
Fixpoint client_behaviour (cls : gmap string attr) (a : attr) : client_method :=
  match a with
  | Native n | Proxy n _ => call_client (native_client n)
  | ClientWrapper o method_name =>
      client_wrapper_calling (inject_attribute cls) (client_behaviour cls o) method_name
  | _ => fun _ _ _ _ => not_callable
  end.

(** Calling an attribute of [RPCServer] as [_process_incoming]. *)
Fixpoint server_behaviour (a : attr) : server_method :=
  match a with
  | Native n | Proxy n _ => call_server (native_server n)
  | ServerWrapper o => _wrap_server_process_incoming P (server_behaviour o)
  | _ => fun _ _ => not_callable
  end.

End Behaviour.

(** ** Vocabulary of the statements *)

Definition with_heap (w : world) (h : heap) : world :=
  World h (w_active w) (w_next_id w) (w_spans w) (w_calls w).

(** Nothing but the store differs between [w] and [w']. *)
Definition same_tracing (w w' : world) : Prop :=
  w_active w' = w_active w ∧ w_next_id w' = w_next_id w ∧
  w_spans w' = w_spans w ∧ w_calls w' = w_calls w.


(** No [to_dict] of the store returns a reference to an object that does
    not exist yet. *)
Definition ref_below (n : nat) (o : hobj) : bool :=
  match o with
  | HObj o => match ob_to_dict o with
              | Some (ToDictReturn (VRef r)) => bool_decide (r < n)%nat
              | _ => true
              end
  | HDict _ => true
  end.
Definition store_closed (h : heap) : bool := forallb (ref_below (length h)) h.

(** The span operations both wrappers start with. *)
Definition client_span_ops (method_name : string) (self : receiver) (method : value)
    : list span_op :=
  [OpStart ("oslo_messaging.rpc." +:+ method_name) CLIENT None;
   OpSetAttribute "rpc.method" method;
   OpSetAttribute "rpc.system" (VStr "oslo_messaging");
   OpSetAttribute "rpc.service" (getattr_target self)].

Definition server_span_ops (context : option Context) (self : receiver) (method : value)
    : list span_op :=
  [OpStart ("oslo_messaging.rpc.server." +:+ py_str method) SERVER context;
   OpSetAttribute "rpc.method" method;
   OpSetAttribute "rpc.system" (VStr "oslo_messaging");
   OpSetAttribute "rpc.service" (getattr_target self)].

(** The span operations of the [except Exception] handler. *)
Definition error_ops (e : exn) : list span_op :=
  [OpRecordException e; OpSetStatus ERROR].

(** The world inside a span started at [w], all attributes set. *)
Definition in_span (w : world) (ops : list span_op) (context : option Context) : world :=
  World (w_heap w)
        (Some (new_span_context (default (w_active w) context) (w_next_id w)))
        (w_next_id w + 2)%N (w_spans w ++ ops) (w_calls w).

(** Leaving the span started at [w] with the further span operations [ops]. *)
Definition leave_span (w : world) (ops : list span_op) (w' : world) : world :=
  World (w_heap w') (w_active w) (w_next_id w') (w_spans w' ++ ops ++ [OpEnd]) (w_calls w').

(** The client wrapper's context argument when it reaches
    [_inject_trace_context], after [if not ctxt: ctxt = {}]. *)
Definition client_ctxt (w : world) (ctxt : value) : value * heap :=
  if truthy (w_heap w) ctxt then (ctxt, w_heap w)
  else (VRef (length (w_heap w)), w_heap w ++ [HDict ∅]).

(** The outcome of a wrapper body whose wrapped callable gave [r]. *)
Definition handled (r : result value) : list span_op :=
  match r with
  | Raise e => if isinstance e Exception_ then error_ops e else []
  | Ok _ => []
  end.

(** [store_closed] as a property of lookups. *)
Definition closed (h : heap) : Prop :=
  ∀ l o r, h !! l = Some (HObj o) → ob_to_dict o = Some (ToDictReturn (VRef r)) →
           (r < length h)%nat.

(** The context current inside the client span started at [w]: the one
    [inject] reads. *)
Definition injection_context (w : world) : Context :=
  Some (new_span_context (w_active w) (w_next_id w)).

(** A propagator loses nothing: extracting from a carrier that holds the
    fields injected for a context gives that context back. *)
Definition lossless (P : Propagator) : Prop :=
  ∀ (h : heap) l c fields,
    p_inject P c = Ok fields → h !! l = Some (HDict fields) →
    p_extract P h (VRef l) = Ok c.

(** ** Sample collaborators and inputs *)

(** A propagator that writes the two ids of the current span. *)
Definition ids_propagator : Propagator :=
  {| p_inject := fun c =>
       Ok (match c with
           | Some sc => {[ "trace_id" := VInt (Z.of_N (trace_id sc));
                           "span_id" := VInt (Z.of_N (span_id sc)) ]}
           | None => ∅
           end);
     p_extract := fun h v =>
       match v with
       | VRef l =>
           match h !! l with
           | Some (HDict d) =>
               match d !! "trace_id", d !! "span_id" with
               | Some (VInt t), Some (VInt s) =>
                   Ok (Some {| trace_id := Z.to_N t; span_id := Z.to_N s |})
               | _, _ => Ok None
               end
           | _ => Ok None
           end
       | _ => Ok None
       end |}.

(** A propagator whose [inject] raises. *)
Definition failing_propagator : Propagator :=
  {| p_inject := fun _ => Raise (Exn RuntimeError "inject failed");
     p_extract := fun _ _ => Ok None |}.

Definition no_target : receiver := {| self_target := None |}.

(** Wrapped operations that answer ["OK"], or raise a given exception. *)
Definition op_ok : client_op := fun _ _ _ _ _ => Ok (VStr "OK").
Definition op_raising (e : exn) : client_op := fun _ _ _ _ _ => Raise e.
Definition handler_ok : server_op := fun _ _ _ => Ok (VStr "done").

Definition timeout_error : exn := Exn TimeoutError "timed out".
Definition keyboard_interrupt : exn := Exn KeyboardInterrupt "interrupted".

(** A fresh process: empty store, no active span, nothing logged. *)
Definition world0 : world := World [] None 1 [] [].

(** A store holding one empty dict, as for [invoke({}, ...)]. *)
Definition world_empty_dict : world := World [HDict ∅] None 1 [] [].

(** A store holding the caller's dict [{"user": "alice"}]. *)
Definition world_user_dict : world :=
  World [HDict {[ "user" := VStr "alice" ]}] None 1 [] [].

(** A context object that caches its dict form: [to_dict] returns the
    dict stored at location 1. *)
Definition caching_context : pyobj :=
  {| ob_truth := true; ob_to_dict := Some (ToDictReturn (VRef 1));
     ob_has_get := false;
     ob_dict := Raise (type_error "object is not iterable");
     ob_setitem := false |}.
Definition world_caching : world :=
  World [HObj caching_context; HDict {[ "user" := VStr "alice" ]}] None 1 [] [].

(** A context object, like [RequestContext], whose [to_dict] builds a dict. *)
Definition request_context : pyobj :=
  {| ob_truth := true; ob_to_dict := Some (ToDictNew {[ "user" := VStr "alice" ]});
     ob_has_get := false;
     ob_dict := Raise (type_error "object is not iterable");
     ob_setitem := false |}.
Definition world_request_context : world := World [HObj request_context] None 1 [] [].

(** A context object whose [to_dict] raises. *)
Definition broken_context : pyobj :=
  {| ob_truth := true;
     ob_to_dict := Some (ToDictRaise (Exn RuntimeError "to_dict failed"));
     ob_has_get := false;
     ob_dict := Raise (type_error "object is not iterable");
     ob_setitem := false |}.

(** A server store: a broken context at 0, a message body at 1. *)
Definition world_broken : world :=
  World [HObj broken_context; HDict {[ "method" := VStr "get_status" ]}] None 1 [] [].

(** A server store: a message body at 0. *)
Definition world_message : world :=
  World [HDict {[ "method" := VStr "get_status" ]}] None 1 [] [].

(** Server-side samples. *)
Definition world_server : world :=
  World [HDict {[ "user" := VStr "alice" ]}; HDict {[ "method" := VStr "get_status" ]}]
        None 1 [] [].
Definition plain_message : Incoming :=
  {| inc_ctxt := Some (VRef 0); inc_message := Some (VRef 1) |}.
Definition unrecognised_message : Incoming :=
  {| inc_ctxt := None; inc_message := Some (VRef 1) |}.
Definition int_ctxt_message : Incoming :=
  {| inc_ctxt := Some (VInt 5); inc_message := Some (VRef 1) |}.

(** A client inside the span (7, 8), and the server that receives the
    context the client's injection built (at location 2) together with a
    message body (at location 3). *)
Definition world_active : world :=
  World [] (Some {| trace_id := 7; span_id := 8 |}) 9 [] [].
Definition world_after_injection : world :=
  (_inject_trace_context ids_propagator VNone world_active).2.
Definition world_receiving : world :=
  World (w_heap world_after_injection ++ [HDict {[ "method" := VStr "get_status" ]}])
        None 1 [] [].
Definition received_message : Incoming :=
  {| inc_ctxt := Some (VRef 2); inc_message := Some (VRef 3) |}.

(** The two classes as the library defines them. *)
Definition pristine_modules : modules :=
  {| rpc_client := Some {[ "cast" := Native "cast"; "call" := Native "call" ]};
     rpc_server := Some {[ "_process_incoming" := Native "_process_incoming" ]} |}.

(** A [_BaseCallContext] that already has an attribute named
    [_inject_trace_context]. *)
Definition modules_with_own_inject : modules :=
  {| rpc_client := Some {[ "call" := Native "call";
                           "_inject_trace_context" := Native "_inject_trace_context" ]};
     rpc_server := Some {[ "_process_incoming" := Native "_process_incoming" ]} |}.

(** The object at [l] holds [v] under [key]: as an entry of a dict, or as
    what an object that accepts item assignment has stored. *)
Definition holds_under (h : heap) (l : loc) (key : string) (v : value) : Prop :=
  match h !! l with
  | Some (HDict d) => d !! key = Some v
  | Some (HObj o) => ob_setitem o = true ∧ ∀ d, ob_dict o = Ok d → d !! key = Some v
  | None => False
  end.

(** The context of the span a tracer starts at [w] under [parent], and the
    world inside that span once the server wrapper has set its attributes:
    written out, for the statements about the span's parent. *)
Definition started_span (w : world) (parent : Context) : SpanContext :=
  {| trace_id := match parent with Some p => trace_id p | None => w_next_id w end;
     span_id := (w_next_id w + 1)%N |}.

(** A mapping object that is its own dict form: [to_dict] returns the
    object itself, and it accepts item assignment (an instance of a dict
    subclass with a [to_dict] method, say). *)
Definition mapping_context : pyobj :=
  {| ob_truth := true; ob_to_dict := Some (ToDictReturn (VRef 0));
     ob_has_get := true;
     ob_dict := Ok {[ "user" := VStr "alice" ]};
     ob_setitem := true |}.
Definition world_mapping_context : world := World [HObj mapping_context] None 1 [] [].

(** A context object with [to_dict] that is falsy (it defines [__len__]
    or [__bool__]). *)
Definition falsy_context : pyobj :=
  {| ob_truth := false; ob_to_dict := Some (ToDictNew {[ "user" := VStr "alice" ]});
     ob_has_get := false;
     ob_dict := Raise (type_error "object is not iterable");
     ob_setitem := false |}.
Definition world_falsy_context : world := World [HObj falsy_context] None 1 [] [].

(** A server thread in which a span, (7, 8), is current when the message
    is dispatched. *)
Definition world_server_in_span : world :=
  World [HDict {[ "user" := VStr "alice" ]}; HDict {[ "method" := VStr "get_status" ]}]
        (Some {| trace_id := 7; span_id := 8 |}) 9 [] [].

(** A handler that reports the trace it runs in. *)
Definition handler_reporting_trace : server_method :=
  fun _ _ w =>
    (Ok (match w_active w with
         | Some sc => VInt (Z.of_N (trace_id sc))
         | None => VNone
         end), w).

(** A propagator whose [extract] reads the carrier with [carrier.get], as
    the default getter does: a carrier that is not a mapping makes it
    raise. *)
Definition strict_propagator : Propagator :=
  {| p_inject := p_inject ids_propagator;
     p_extract := fun h v =>
       match v with
       | VRef _ => p_extract ids_propagator h v
       | _ => Raise (Exn AttributeError "get")
       end |}.

(** A server store whose context holds a string under the reserved key. *)
Definition world_malformed_carrier : world :=
  World [HDict {[ "_trace_context" := VStr "garbage" ]};
         HDict {[ "method" := VStr "get_status" ]}] None 1 [] [].

(** What [_instrument] leaves of the two classes as the library defines
    them. *)
Definition instrumented_pristine : modules :=
  match _instrument pristine_modules with
  | Ok m => m
  | Raise _ => pristine_modules
  end.

(** Further sample inputs. *)

(** A caller's dict that already has an entry under the reserved key. *)
Definition world_stale_key : world :=
  World [HDict {[ "user" := VStr "alice"; "_trace_context" := VStr "stale" ]}]
        None 1 [] [].

(** A server store whose message body has no ["method"] entry. *)
Definition world_no_method : world :=
  World [HDict {[ "user" := VStr "alice" ]}; HDict {[ "args" := VInt 1 ]}] None 1 [] [].

(** A server store: a context that holds a carrier (at 0) under the
    reserved key, and a message body. *)
Definition world_with_carrier : world :=
  World [HDict {[ "trace_id" := VInt 7; "span_id" := VInt 8 ]};
         HDict {[ "_trace_context" := VRef 0 ]};
         HDict {[ "method" := VStr "get_status" ]}] None 1 [] [].
Definition carrier_message : Incoming :=
  {| inc_ctxt := Some (VRef 1); inc_message := Some (VRef 2) |}.

(** Messages with a context of [None], and with a body that is [None]. *)
Definition none_ctxt_message : Incoming :=
  {| inc_ctxt := Some VNone; inc_message := Some (VRef 1) |}.
Definition none_body_message : Incoming :=
  {| inc_ctxt := Some (VRef 0); inc_message := Some VNone |}.

Definition handler_raising (e : exn) : server_op := fun _ _ _ => Raise e.

(** A client class that also defines [call_async]. *)
Definition modules_with_async : modules :=
  {| rpc_client := Some {[ "cast" := Native "cast"; "call" := Native "call";
                           "call_async" := Native "call_async" ]};
     rpc_server := Some {[ "_process_incoming" := Native "_process_incoming" ]} |}.

(** A server class without [_process_incoming]. *)
Definition modules_without_process_incoming : modules :=
  {| rpc_client := Some {[ "call" := Native "call" ]};
     rpc_server := Some ∅ |}.

(** An [unwrap] leaves alone what records no [__wrapped__]. *)
Definition keeps_unwrapped (unwrap : gmap string attr -> string -> gmap string attr)
    : Prop :=
  ∀ (cls : gmap string attr) name a,
    cls !! name = Some a → __wrapped__ a = None → unwrap cls name = cls.

(** No attribute of the class records a [__wrapped__]. *)
Definition unwrapped_class (cls : gmap string attr) : Prop :=
  ∀ name a, cls !! name = Some a → __wrapped__ a = None.

(** One store for a loop-back delivery: the caller's dict at 0 and the
    message body at 1; the server is handed the dict the client forwarded
    (at 3). *)
Definition world_loopback : world :=
  World [HDict {[ "user" := VStr "alice" ]}; HDict {[ "method" := VStr "get_status" ]}]
        (Some {| trace_id := 7; span_id := 8 |}) 9 [] [].
Definition loopback_message : Incoming :=
  {| inc_ctxt := Some (VRef 3); inc_message := Some (VRef 1) |}.

(** * Proofs *)

Ltac munfold :=
  unfold mbind, M_bind, bind, mret, M_ret, ret, raise, lift_result, get_heap,
    get_world, set_heap, act, alloc, try_except, finally in *.

(** ** The store *)


Lemma lookup_snoc_obj (h : heap) x l o :
  (h ++ [HDict x]) !! l = Some (HObj o) → h !! l = Some (HObj o).
Proof.
  intros H. destruct (decide (l < length h)%nat) as [Hl|Hl].
  - by rewrite lookup_app_l in H.
  - rewrite lookup_app_r in H by lia.
    destruct (l - length h)%nat; simpl in H; [done|]. by rewrite lookup_nil in H.
Qed.

Lemma store_closed_closed h : store_closed h = true → closed h.
Proof.
  unfold store_closed. rewrite forallb_forall. intros Hall l o r Hl Hr.
  assert (Hin : In (HObj o) h).
  { apply list_elem_of_In, list_elem_of_lookup. eauto. }
  specialize (Hall _ Hin). simpl in Hall. rewrite Hr in Hall.
  by apply bool_decide_eq_true in Hall.
Qed.

Lemma closed_snoc h d : closed h → closed (h ++ [HDict d]).
Proof.
  intros Hc l o r Hl Hr. apply lookup_snoc_obj in Hl.
  rewrite length_app. specialize (Hc _ _ _ Hl Hr). lia.
Qed.

Lemma prefix_lookup_Some (h k : heap) l x :
  h `prefix_of` k → h !! l = Some x → k !! l = Some x.
Proof. intros [t ->] H. by apply lookup_app_l_Some. Qed.

Lemma calls_not_self (cs : list call_record) c : cs ≠ cs ++ [c].
Proof.
  intros H. apply (f_equal length) in H. rewrite length_app in H. simpl in H. lia.
Qed.

(** ** Carrier injection *)

Section Injection.
Variable P : Propagator.

(** Once [inject] has filled the carrier, the rest of
    [_inject_trace_context] runs in a store with the carrier at its end. *)
Lemma inject_trace_context_unfold ctxt (w : world) :
  _inject_trace_context P ctxt w =
  match p_inject P (w_active w) with
  | Raise e => (Raise e, with_heap w (w_heap w ++ [HDict ∅]))
  | Ok fields =>
      let carrier := VRef (length (w_heap w)) in
      let w1 := with_heap w (w_heap w ++ [HDict fields]) in
      (ctxt_dict ← (if hasattr_to_dict (w_heap w1) ctxt then call_to_dict ctxt
                    else if truthy (w_heap w1) ctxt then py_dict ctxt
                    else (empty ← alloc (HDict ∅); py_dict empty));
       setitem ctxt_dict TRACE_CONTEXT_KEY carrier;;
       mret ctxt_dict) w1
  end.
Proof.
  unfold _inject_trace_context, inject. munfold. simpl.
  destruct (p_inject P (w_active w)) as [fields|e]; [|done].
  assert (Hl : (w_heap w ++ [HDict ∅]) !! length (w_heap w) = Some (HDict ∅))
    by (by apply list_lookup_middle).
  rewrite Hl. simpl.
  assert (Hi : <[length (w_heap w) := HDict (fields ∪ ∅)]> (w_heap w ++ [HDict ∅])
               = w_heap w ++ [HDict fields]).
  { rewrite insert_app_r_alt by done. rewrite Nat.sub_diag. simpl.
    by rewrite (right_id ∅ (∪)). }
  rewrite Hi. done.
Qed.

Ltac inject_cases H :=
  rewrite inject_trace_context_unfold in H;
  unfold call_to_dict, py_dict, setitem in H; munfold; simpl in H;
  repeat (case_match; simplify_eq/=).

(** Injection touches the store only. *)
Lemma inject_trace_context_tracing ctxt w r w' :
  _inject_trace_context P ctxt w = (r, w') → same_tracing w w'.
Proof. intros H. unfold same_tracing. inject_cases H; done. Qed.

(** What it returns is an object that holds the carrier under the
    reserved key; the carrier is the object allocated first. *)
Lemma inject_trace_context_result ctxt w c' w' :
  _inject_trace_context P ctxt w = (Ok c', w') →
  ∃ l, c' = VRef l ∧
       holds_under (w_heap w') l TRACE_CONTEXT_KEY (VRef (length (w_heap w))).
Proof.
  intros H. inject_cases H.
  all: eexists; split; [done|]; unfold holds_under; simpl.
  all: rewrite list_lookup_insert_eq by (by eapply lookup_lt_Some).
  all: try by rewrite lookup_insert_eq.
  all: split; [done|]; unfold assign_item; simpl; intros d' Hd'.
  all: match type of Hd' with
       | match ob_dict ?o with _ => _ end = _ =>
           destruct (ob_dict o); simplify_eq; by rewrite lookup_insert_eq
       end.
Qed.

(** When that object is a dict, the carrier is an entry of it. *)
Lemma holds_under_dict (h : heap) l d key v :
  h !! l = Some (HDict d) → holds_under h l key v → d !! key = Some v.
Proof. unfold holds_under. by intros ->. Qed.


(** In a closed store the carrier keeps the injected fields. *)
Lemma inject_trace_context_carrier ctxt w c' w' :
  closed (w_heap w) →
  _inject_trace_context P ctxt w = (Ok c', w') →
  ∃ fields, p_inject P (w_active w) = Ok fields ∧
            w_heap w' !! length (w_heap w) = Some (HDict fields).
Proof.
  intros Hc H. inject_cases H.
  all: eexists; split; [done|].
  all: try match goal with
       | H : (_ ++ [HDict _]) !! _ = Some (HObj _),
         H2 : ob_to_dict _ = Some (ToDictReturn (VRef ?r)) |- _ =>
           apply lookup_snoc_obj in H; pose proof (Hc _ _ _ H H2)
       end.
  all: rewrite list_lookup_insert_ne by (rewrite ?length_app; simpl; lia).
  all: rewrite <- ?app_assoc; by apply list_lookup_middle.
Qed.

Lemma inject_trace_context_raises ctxt w e :
  p_inject P (w_active w) = Raise e →
  _inject_trace_context P ctxt w = (Raise e, with_heap w (w_heap w ++ [HDict ∅])).
Proof. intros H. by rewrite inject_trace_context_unfold, H. Qed.

End Injection.

Section InjectionRuns.
Variable P : Propagator.

(** The three kinds of call context the client expects. *)
Lemma inject_trace_context_dict (w : world) l0 d0 fields :
  w_heap w !! l0 = Some (HDict d0) → d0 ≠ ∅ →
  p_inject P (w_active w) = Ok fields →
  _inject_trace_context P (VRef l0) w =
  (Ok (VRef (S (length (w_heap w)))),
   with_heap w (w_heap w ++ [HDict fields;
     HDict (<[TRACE_CONTEXT_KEY := VRef (length (w_heap w))]> d0)])).
Proof.
  intros Hl Hne Hf. rewrite inject_trace_context_unfold, Hf. simpl.
  assert (Hl1 : (w_heap w ++ [HDict fields]) !! l0 = Some (HDict d0))
    by (by apply lookup_app_l_Some).
  rewrite Hl1. rewrite bool_decide_eq_false_2 by done. simpl.
  unfold py_dict, setitem. munfold. simpl. rewrite Hl1. simpl.
  rewrite length_app. simpl. rewrite Nat.add_1_r.
  assert (Hl2 : ((w_heap w ++ [HDict fields]) ++ [HDict d0]) !! S (length (w_heap w))
                = Some (HDict d0)).
  { apply list_lookup_middle. rewrite length_app. simpl. lia. }
  rewrite Hl2. unfold with_heap. simpl. do 3 f_equal.
  rewrite insert_app_r_alt by (rewrite length_app; simpl; lia).
  rewrite length_app. simpl. replace (_ - _)%nat with 0%nat by lia. simpl.
  by rewrite <- app_assoc.
Qed.

Lemma inject_trace_context_empty (w : world) l0 fields :
  w_heap w !! l0 = Some (HDict ∅) →
  p_inject P (w_active w) = Ok fields →
  _inject_trace_context P (VRef l0) w =
  (Ok (VRef (S (S (length (w_heap w))))),
   with_heap w (w_heap w ++ [HDict fields; HDict ∅;
     HDict {[ TRACE_CONTEXT_KEY := VRef (length (w_heap w)) ]}])).
Proof.
  intros Hl Hf. rewrite inject_trace_context_unfold, Hf. simpl.
  assert (Hl1 : (w_heap w ++ [HDict fields]) !! l0 = Some (HDict ∅))
    by (by apply lookup_app_l_Some).
  rewrite Hl1. rewrite bool_decide_eq_true_2 by done. simpl.
  unfold py_dict, setitem. munfold. simpl.
  rewrite length_app. simpl. rewrite Nat.add_1_r.
  assert (Hl2 : ((w_heap w ++ [HDict fields]) ++ [HDict ∅]) !! S (length (w_heap w))
                = Some (HDict ∅)).
  { apply list_lookup_middle. rewrite length_app. simpl. lia. }
  rewrite Hl2. simpl. rewrite !length_app. simpl.
  replace (length (w_heap w) + 1 + 1)%nat with (S (S (length (w_heap w)))) by lia.
  assert (Hl3 : (((w_heap w ++ [HDict fields]) ++ [HDict ∅]) ++ [HDict ∅])
                  !! S (S (length (w_heap w))) = Some (HDict ∅)).
  { apply list_lookup_middle. rewrite !length_app. simpl. lia. }
  rewrite Hl3. unfold with_heap. simpl. do 3 f_equal.
  rewrite insert_app_r_alt by (rewrite !length_app; simpl; lia).
  rewrite !length_app. simpl. replace (_ - _)%nat with 0%nat by lia. simpl.
  by rewrite <- !app_assoc.
Qed.

Lemma inject_trace_context_to_dict_new (w : world) l0 o d0 fields :
  w_heap w !! l0 = Some (HObj o) → ob_to_dict o = Some (ToDictNew d0) →
  p_inject P (w_active w) = Ok fields →
  _inject_trace_context P (VRef l0) w =
  (Ok (VRef (S (length (w_heap w)))),
   with_heap w (w_heap w ++ [HDict fields;
     HDict (<[TRACE_CONTEXT_KEY := VRef (length (w_heap w))]> d0)])).
Proof.
  intros Hl Ht Hf. rewrite inject_trace_context_unfold, Hf. simpl.
  assert (Hl1 : (w_heap w ++ [HDict fields]) !! l0 = Some (HObj o))
    by (by apply lookup_app_l_Some).
  rewrite Hl1, Ht. rewrite bool_decide_eq_true_2 by eauto. simpl.
  unfold call_to_dict, setitem. munfold. simpl. rewrite Hl1, Ht. simpl.
  rewrite length_app. simpl. rewrite Nat.add_1_r.
  assert (Hl2 : ((w_heap w ++ [HDict fields]) ++ [HDict d0]) !! S (length (w_heap w))
                = Some (HDict d0)).
  { apply list_lookup_middle. rewrite length_app. simpl. lia. }
  rewrite Hl2. unfold with_heap. simpl. do 3 f_equal.
  rewrite insert_app_r_alt by (rewrite length_app; simpl; lia).
  rewrite length_app. simpl. replace (_ - _)%nat with 0%nat by lia. simpl.
  by rewrite <- app_assoc.
Qed.

(** An object whose [to_dict] returns something it holds: the key is
    written into that very object, which is what the injection returns. *)
Lemma inject_trace_context_to_dict_held_dict (w : world) l0 o lr d0 fields :
  w_heap w !! l0 = Some (HObj o) → ob_to_dict o = Some (ToDictReturn (VRef lr)) →
  w_heap w !! lr = Some (HDict d0) →
  p_inject P (w_active w) = Ok fields →
  _inject_trace_context P (VRef l0) w =
  (Ok (VRef lr),
   with_heap w (<[lr := HDict (<[TRACE_CONTEXT_KEY := VRef (length (w_heap w))]> d0)]>
                  (w_heap w ++ [HDict fields]))).
Proof.
  intros Hl Ht Hr Hf. rewrite inject_trace_context_unfold, Hf. simpl.
  assert (Hl1 : (w_heap w ++ [HDict fields]) !! l0 = Some (HObj o))
    by (by apply lookup_app_l_Some).
  assert (Hr1 : (w_heap w ++ [HDict fields]) !! lr = Some (HDict d0))
    by (by apply lookup_app_l_Some).
  rewrite Hl1, Ht. rewrite bool_decide_eq_true_2 by eauto. simpl.
  unfold call_to_dict, setitem. munfold. simpl. rewrite Hl1, Ht. simpl.
  by rewrite Hr1.
Qed.

Lemma inject_trace_context_to_dict_held_object (w : world) l0 o lr o2 fields :
  w_heap w !! l0 = Some (HObj o) → ob_to_dict o = Some (ToDictReturn (VRef lr)) →
  w_heap w !! lr = Some (HObj o2) → ob_setitem o2 = true →
  p_inject P (w_active w) = Ok fields →
  _inject_trace_context P (VRef l0) w =
  (Ok (VRef lr),
   with_heap w (<[lr := HObj (assign_item o2 TRACE_CONTEXT_KEY (VRef (length (w_heap w))))]>
                  (w_heap w ++ [HDict fields]))).
Proof.
  intros Hl Ht Hr Hs Hf. rewrite inject_trace_context_unfold, Hf. simpl.
  assert (Hl1 : (w_heap w ++ [HDict fields]) !! l0 = Some (HObj o))
    by (by apply lookup_app_l_Some).
  assert (Hr1 : (w_heap w ++ [HDict fields]) !! lr = Some (HObj o2))
    by (by apply lookup_app_l_Some).
  rewrite Hl1, Ht. rewrite bool_decide_eq_true_2 by eauto. simpl.
  unfold call_to_dict, setitem. munfold. simpl. rewrite Hl1, Ht. simpl.
  by rewrite Hr1, Hs.
Qed.

End InjectionRuns.

(** ** The wrappers, unfolded *)

Section Wrappers.
Variable P : Propagator.

Lemma client_wrapper_unfold orig mn self ctxt method kwargs w :
  _wrap_client_method P orig mn self ctxt method kwargs w =
  let '(c0, h0) := client_ctxt w ctxt in
  let w1 := with_heap (in_span w (client_span_ops mn self method) None) h0 in
  match _inject_trace_context P c0 w1 with
  | (Raise e, w2) => (Raise e, leave_span w [] w2)
  | (Ok c', w2) =>
      let '(r, w3) := orig self c' method kwargs w2 in
      (r, leave_span w (handled r) w3)
  end.
Proof.
  unfold _wrap_client_method, start_as_current_span, client_ctxt, on_exception,
    set_attribute, record_exception, set_status.
  munfold. simpl.
  unfold in_span, with_heap, client_span_ops, leave_span, log_span, set_active. simpl.
  rewrite <- !app_assoc. simpl.
  destruct (truthy (w_heap w) ctxt); simpl.
  - destruct (_inject_trace_context P ctxt _) as [[c'|e] w2]; simpl; [|done].
    destruct (orig self c' method kwargs w2) as [[v|e] w3]; simpl; [done|].
    rewrite orb_false_r. destruct (isinstance e Exception_); simpl; [|done].
    by rewrite <- !app_assoc.
  - destruct (_inject_trace_context P _ _) as [[c'|e] w2]; simpl; [|done].
    destruct (orig self c' method kwargs w2) as [[v|e] w3]; simpl; [done|].
    rewrite orb_false_r. destruct (isinstance e Exception_); simpl; [|done].
    by rewrite <- !app_assoc.
Qed.

Lemma server_wrapper_unfold orig self incoming ctxt message w :
  inc_ctxt incoming = Some ctxt → inc_message incoming = Some message →
  _wrap_server_process_incoming P orig self incoming w =
  match normalize_incoming_ctxt ctxt w with
  | (Raise e, w1) => (Raise e, w1)
  | (Ok ctxt_dict, w1) =>
      match extract_parent P ctxt_dict w1 with
      | (Raise e, w2) => (Raise e, w2)
      | (Ok ctx, w2) =>
          match py_get message "method" (VStr "unknown") w2 with
          | (Raise e, w3) => (Raise e, w3)
          | (Ok method, w3) =>
              let '(r, w4) :=
                orig self incoming (in_span w3 (server_span_ops ctx self method) ctx) in
              (r, leave_span w3 (handled r) w4)
          end
      end
  end.
Proof.
  intros Hc Hm. unfold _wrap_server_process_incoming, start_as_current_span,
    on_exception, set_attribute, record_exception, set_status.
  rewrite Hc, Hm. munfold. simpl.
  destruct (normalize_incoming_ctxt ctxt w) as [[cd|e] w1]; [|done].
  destruct (extract_parent P cd w1) as [[ctx|e] w2]; [|done].
  destruct (py_get message "method" (VStr "unknown") w2) as [[m|e] w3]; [|done].
  unfold in_span, server_span_ops, leave_span, log_span, set_active. simpl.
  rewrite <- !app_assoc. simpl.
  destruct (orig self incoming _) as [[v|e] w4]; simpl; [done|].
  rewrite orb_false_r. destruct (isinstance e Exception_); simpl; [|done].
  by rewrite <- !app_assoc.
Qed.

(** The store the client's injection starts from only adds [{}]. *)
Lemma client_ctxt_prefix w ctxt c0 h0 :
  client_ctxt w ctxt = (c0, h0) → w_heap w `prefix_of` h0.
Proof.
  unfold client_ctxt. destruct (truthy _ _); intros; simplify_eq; [done|].
  by eexists.
Qed.


Lemma client_ctxt_closed w ctxt c0 h0 :
  client_ctxt w ctxt = (c0, h0) → closed (w_heap w) → closed h0.
Proof.
  unfold client_ctxt. destruct (truthy _ _); intros; simplify_eq; [done|].
  by apply closed_snoc.
Qed.

End Wrappers.

(** ** Client wrapper *)

Section Client.
Variable P : Propagator.

(** Every run of the client wrapper is of one of two kinds: injection
    raised and nothing was forwarded, or the wrapped operation was called
    once, with an object holding the reserved key, and its outcome is the
    wrapper's. *)
Lemma client_wrapper_outcome op mn self ctxt method kwargs w r w' :
  _wrap_client_method P (call_client op) mn self ctxt method kwargs w = (r, w') →
  (∃ e, r = Raise e ∧ w_calls w' = w_calls w ∧
        w_spans w' = w_spans w ++ client_span_ops mn self method ++ [OpEnd])
  ∨ (∃ l, w_calls w' = w_calls w ++ [CallClient self (VRef l) method kwargs] ∧
          r = op (w_heap w') self (VRef l) method kwargs ∧
          w_spans w' = w_spans w ++ client_span_ops mn self method ++ handled r ++ [OpEnd] ∧
          ∃ carrier, holds_under (w_heap w') l TRACE_CONTEXT_KEY carrier).
Proof.
  rewrite client_wrapper_unfold.
  destruct (client_ctxt w ctxt) as [c0 h0]. simpl.
  destruct (_inject_trace_context P c0 _) as [[c'|e] w2] eqn:Hinj.
  - destruct (inject_trace_context_tracing _ _ _ _ _ Hinj) as (_ & _ & Hs & Hc).
    destruct (inject_trace_context_result _ _ _ _ _ Hinj) as (l & -> & Hl).
    unfold call_client. intros [= <- <-]. right. exists l. simpl.
    rewrite Hs, Hc. simpl. rewrite <- app_assoc. eauto 10.
  - destruct (inject_trace_context_tracing _ _ _ _ _ Hinj) as (_ & _ & Hs & Hc).
    intros [= <- <-]. left. exists e. simpl. rewrite Hs, Hc. simpl.
    by rewrite <- app_assoc.
Qed.

(** C1. If the operation the client wrapper calls raises an error [E] (an
    instance of [Exception], which is what the wrapper's [except Exception]
    receives), the wrapper raises that same [E], having recorded [E] on its
    span and set the span's status to ERROR before the span ends. *)
Theorem client_error_recorded_then_reraised op mn self ctxt method kwargs w r w' c E :
  isinstance E Exception_ = true →
  _wrap_client_method P (call_client op) mn self ctxt method kwargs w = (r, w') →
  w_calls w' = w_calls w ++ [CallClient self c method kwargs] →
  op (w_heap w') self c method kwargs = Raise E →
  r = Raise E ∧
  w_spans w' = w_spans w ++ client_span_ops mn self method
                 ++ [OpRecordException E; OpSetStatus ERROR; OpEnd].
Proof.
  intros HE Hrun Hcall Hop.
  destruct (client_wrapper_outcome _ _ _ _ _ _ _ _ _ Hrun)
    as [(e & _ & Hc & _)|(l & Hc & Hr & Hs & _)].
  - rewrite Hc in Hcall. by apply calls_not_self in Hcall.
  - rewrite Hc in Hcall. apply app_inj_tail in Hcall as [_ [= <-]].
    rewrite Hop in Hr. subst r. split; [done|].
    rewrite Hs. simpl. by rewrite HE.
Qed.

(** An exception outside [Exception] passes through as well, but the
    wrapper records nothing for it. *)
Lemma client_non_error_reraised_unrecorded op mn self ctxt method kwargs w r w' c E :
  isinstance E Exception_ = false →
  _wrap_client_method P (call_client op) mn self ctxt method kwargs w = (r, w') →
  w_calls w' = w_calls w ++ [CallClient self c method kwargs] →
  op (w_heap w') self c method kwargs = Raise E →
  r = Raise E ∧
  w_spans w' = w_spans w ++ client_span_ops mn self method ++ [OpEnd].
Proof.
  intros HE Hrun Hcall Hop.
  destruct (client_wrapper_outcome _ _ _ _ _ _ _ _ _ Hrun)
    as [(e & _ & Hc & _)|(l & Hc & Hr & Hs & _)].
  - rewrite Hc in Hcall. by apply calls_not_self in Hcall.
  - rewrite Hc in Hcall. apply app_inj_tail in Hcall as [_ [= <-]].
    rewrite Hop in Hr. subst r. split; [done|].
    rewrite Hs. simpl. by rewrite HE.
Qed.

End Client.

Lemma client_error_recorded_then_reraised_witness :
  let run := _wrap_client_method ids_propagator (call_client (op_raising timeout_error))
               "call" no_target VNone (VStr "get_status") ∅ world0 in
  run.1 = Raise timeout_error ∧
  w_spans run.2 =
    client_span_ops "call" no_target (VStr "get_status")
      ++ [OpRecordException timeout_error; OpSetStatus ERROR; OpEnd].
Proof.
  apply (client_error_recorded_then_reraised ids_propagator (op_raising timeout_error)
           "call" no_target VNone (VStr "get_status") ∅ world0 _ _ (VRef 3) timeout_error);
    [reflexivity | apply surjective_pairing | reflexivity | reflexivity].
Defined.

Section ClientInjection.
Variable P : Propagator.

(** C3, as the code has it. If the propagator's [inject] raises [E], the
    client wrapper does not call the wrapped operation: [E] reaches the
    caller, and the span is ended without the wrapper recording anything
    on it. *)
Theorem client_inject_failure_propagates orig mn self ctxt method kwargs w E :
  p_inject P (injection_context w) = Raise E →
  _wrap_client_method P orig mn self ctxt method kwargs w =
  let h0 := (client_ctxt w ctxt).2 in
  (Raise E,
   World (h0 ++ [HDict ∅]) (w_active w) (w_next_id w + 2)%N
     (w_spans w ++ client_span_ops mn self method ++ [OpEnd]) (w_calls w)).
Proof.
  intros HE. rewrite client_wrapper_unfold.
  destruct (client_ctxt w ctxt) as [c0 h0]. simpl.
  rewrite (inject_trace_context_raises P c0 _ E) by done. simpl.
  unfold leave_span. simpl. by rewrite <- app_assoc.
Qed.

(** The success run of the client wrapper on an empty dict. *)
Lemma client_wrapper_empty_dict_run op mn self method kwargs (w : world) l0 fields :
  w_heap w !! l0 = Some (HDict ∅) →
  p_inject P (injection_context w) = Ok fields →
  let lc := S (length (w_heap w)) in
  let h' := w_heap w ++ [HDict ∅; HDict fields; HDict ∅;
                         HDict {[ TRACE_CONTEXT_KEY := VRef lc ]}] in
  let r := op h' self (VRef (S (S lc))) method kwargs in
  _wrap_client_method P (call_client op) mn self (VRef l0) method kwargs w =
  (r, World h' (w_active w) (w_next_id w + 2)%N
        (w_spans w ++ client_span_ops mn self method ++ handled r ++ [OpEnd])
        (w_calls w ++ [CallClient self (VRef (S (S lc))) method kwargs])).
Proof.
  intros Hl Hf. rewrite client_wrapper_unfold. unfold client_ctxt. simpl.
  rewrite Hl. rewrite bool_decide_eq_true_2 by done. simpl.
  rewrite (inject_trace_context_empty P _ (length (w_heap w)) fields);
    [|by apply list_lookup_middle|done].
  unfold call_client, leave_span, log_call, with_heap. simpl.
  rewrite !length_app. simpl. rewrite Nat.add_1_r.
  rewrite <- !app_assoc. simpl. done.
Qed.

(** C6, as the code has it. For [invoke({}, "get_status", args)] where the
    wrapped operation returns ["OK"] (and inject succeeds): the wrapper
    returns ["OK"]; it produces exactly one span, of kind CLIENT, named
    for the wrapped call kind ([oslo_messaging.rpc.] followed by the
    wrapped method's name), with attributes rpc.method = "get_status",
    rpc.system = "oslo_messaging" and rpc.service, and status unset; and
    the context forwarded to the wrapped operation is a dict holding the
    reserved key. *)
Theorem client_success_scenario op mn self kwargs (w : world) l0 fields :
  w_heap w !! l0 = Some (HDict ∅) →
  w_spans w = [] →
  p_inject P (injection_context w) = Ok fields →
  (∀ h c, op h self c (VStr "get_status") kwargs = Ok (VStr "OK")) →
  ∃ w' l d,
    _wrap_client_method P (call_client op) mn self (VRef l0) (VStr "get_status") kwargs w
      = (Ok (VStr "OK"), w') ∧
    finished_spans w' =
      [ {| sp_name := "oslo_messaging.rpc." +:+ mn; sp_kind := CLIENT;
           sp_context := None;
           sp_attributes := [("rpc.method", VStr "get_status");
                             ("rpc.system", VStr "oslo_messaging");
                             ("rpc.service", getattr_target self)];
           sp_exceptions := []; sp_status := UNSET |} ] ∧
    w_calls w' = w_calls w ++ [CallClient self (VRef l) (VStr "get_status") kwargs] ∧
    w_heap w' !! l = Some (HDict d) ∧ is_Some (d !! TRACE_CONTEXT_KEY).
Proof.
  intros Hl Hs Hf Hop.
  rewrite (client_wrapper_empty_dict_run op mn self _ kwargs w l0 fields Hl Hf).
  rewrite Hop. simpl. eexists _, _, _. split; [done|]. simpl.
  split; [|split; [done|split]].
  - unfold finished_spans. simpl. by rewrite Hs.
  - rewrite lookup_app_r by lia. replace (_ - _)%nat with 3%nat by lia. done.
  - rewrite lookup_singleton_eq. eauto.
Qed.

End ClientInjection.

Lemma client_inject_failure_propagates_witness :
  _wrap_client_method failing_propagator (call_client op_ok) "call" no_target
    VNone (VStr "get_status") ∅ world0 =
  (Raise (Exn RuntimeError "inject failed"),
   World [HDict ∅; HDict ∅] None 3
     (client_span_ops "call" no_target (VStr "get_status") ++ [OpEnd]) []).
Proof.
  apply (client_inject_failure_propagates failing_propagator (call_client op_ok)
           "call" no_target VNone (VStr "get_status") ∅ world0
           (Exn RuntimeError "inject failed")).
  reflexivity.
Defined.

(** C3 as stated fails: with a propagator whose [inject] raises, the
    wrapped operation is never called and the caller gets the error. *)
Lemma client_inject_failure_blocks_call :
  let run := _wrap_client_method failing_propagator (call_client op_ok) "call"
               no_target VNone (VStr "get_status") ∅ world0 in
  p_inject failing_propagator (injection_context world0)
    = Raise (Exn RuntimeError "inject failed") ∧
  run.1 = Raise (Exn RuntimeError "inject failed") ∧
  w_calls run.2 = [].
Proof. by vm_compute. Qed.

Lemma client_success_scenario_witness :
  ∃ w' l d,
    _wrap_client_method ids_propagator (call_client op_ok) "call" no_target (VRef 0)
      (VStr "get_status") ∅ world_empty_dict = (Ok (VStr "OK"), w') ∧
    finished_spans w' =
      [ {| sp_name := "oslo_messaging.rpc.call"; sp_kind := CLIENT;
           sp_context := None;
           sp_attributes := [("rpc.method", VStr "get_status");
                             ("rpc.system", VStr "oslo_messaging");
                             ("rpc.service", VNone)];
           sp_exceptions := []; sp_status := UNSET |} ] ∧
    w_calls w' = [CallClient no_target (VRef l) (VStr "get_status") ∅] ∧
    w_heap w' !! l = Some (HDict d) ∧ is_Some (d !! TRACE_CONTEXT_KEY).
Proof.
  apply (client_success_scenario ids_propagator op_ok "call" no_target ∅
           world_empty_dict 0%nat
           {[ "trace_id" := VInt 1; "span_id" := VInt 2 ]});
    [reflexivity | reflexivity | reflexivity | intros; reflexivity].
Defined.

(** C6 as stated fails: the one span of the scenario is named for the call
    kind; its name does not mention ["get_status"]. *)
Lemma client_span_not_named_for_rpc_method :
  let run := _wrap_client_method ids_propagator (call_client op_ok) "call" no_target
               (VRef 0) (VStr "get_status") ∅ world_empty_dict in
  run.1 = Ok (VStr "OK") ∧
  sp_name <$> finished_spans run.2 = ["oslo_messaging.rpc.call"] ∧
  String.index 0 "get_status" "oslo_messaging.rpc.call" = None.
Proof. by vm_compute. Qed.

Section ClientContext.
Variable P : Propagator.

(** The wrapper's run, from the run of the injection inside it. *)
Lemma client_wrapper_forwarding op mn self ctxt method kwargs (w : world) c0 h0 c' w2 :
  client_ctxt w ctxt = (c0, h0) →
  _inject_trace_context P c0
    (with_heap (in_span w (client_span_ops mn self method) None) h0) = (Ok c', w2) →
  let r := op (w_heap w2) self c' method kwargs in
  _wrap_client_method P (call_client op) mn self ctxt method kwargs w =
  (r, leave_span w (handled r) (log_call (CallClient self c' method kwargs) w2)).
Proof.
  intros Hc Hinj. rewrite client_wrapper_unfold, Hc. simpl. by rewrite Hinj.
Qed.


(** C10, as the code has it. When inject succeeds: for a falsy context
    (None, an empty mapping, a falsy object) the client wrapper forwards a
    new plain dict that holds the carrier alone; for a non-empty dict, a
    new plain dict with the same items and the carrier.  For a truthy
    object with [to_dict] it forwards what [to_dict()] returned, with the
    carrier written into it: the plain dict [to_dict] built, or the very
    object [to_dict] handed out, be it a dict the context keeps or an
    object that accepts item assignment, which keeps its type. *)
Theorem client_forwarded_context_shape
    op mn self ctxt method kwargs (w : world) r w' fields :
  p_inject P (injection_context w) = Ok fields →
  _wrap_client_method P (call_client op) mn self ctxt method kwargs w = (r, w') →
  (truthy (w_heap w) ctxt = false →
   ∃ l carrier,
     (length (w_heap w) ≤ l)%nat ∧
     w_calls w' = w_calls w ++ [CallClient self (VRef l) method kwargs] ∧
     w_heap w' !! l = Some (HDict {[ TRACE_CONTEXT_KEY := carrier ]}))
  ∧ (∀ l0 d0, ctxt = VRef l0 → w_heap w !! l0 = Some (HDict d0) → d0 ≠ ∅ →
     ∃ l carrier,
       (length (w_heap w) ≤ l)%nat ∧
       w_calls w' = w_calls w ++ [CallClient self (VRef l) method kwargs] ∧
       w_heap w' !! l = Some (HDict (<[TRACE_CONTEXT_KEY := carrier]> d0)))
  ∧ (∀ l0 o d0, ctxt = VRef l0 → w_heap w !! l0 = Some (HObj o) →
     ob_truth o = true → ob_to_dict o = Some (ToDictNew d0) →
     ∃ l carrier,
       (length (w_heap w) ≤ l)%nat ∧
       w_calls w' = w_calls w ++ [CallClient self (VRef l) method kwargs] ∧
       w_heap w' !! l = Some (HDict (<[TRACE_CONTEXT_KEY := carrier]> d0)))
  ∧ (∀ l0 o lr, ctxt = VRef l0 → w_heap w !! l0 = Some (HObj o) →
     ob_truth o = true → ob_to_dict o = Some (ToDictReturn (VRef lr)) →
     (∀ d0, w_heap w !! lr = Some (HDict d0) →
        ∃ carrier,
          w_calls w' = w_calls w ++ [CallClient self (VRef lr) method kwargs] ∧
          w_heap w' !! lr = Some (HDict (<[TRACE_CONTEXT_KEY := carrier]> d0)))
     ∧ (∀ o2, w_heap w !! lr = Some (HObj o2) → ob_setitem o2 = true →
        ∃ carrier,
          w_calls w' = w_calls w ++ [CallClient self (VRef lr) method kwargs] ∧
          w_heap w' !! lr = Some (HObj (assign_item o2 TRACE_CONTEXT_KEY carrier)))).
Proof.
  intros Hf Hrun. split; [|split; [|split]].
  - intros Hfalse.
    assert (Hc0 : client_ctxt w ctxt = (VRef (length (w_heap w)), w_heap w ++ [HDict ∅]))
      by (unfold client_ctxt; by rewrite Hfalse).
    erewrite client_wrapper_forwarding in Hrun; [|exact Hc0|].
    2:{ apply (inject_trace_context_empty P _ (length (w_heap w)) fields);
          [by apply list_lookup_middle | done]. }
    simpl in Hrun. injection Hrun as <- <-. simpl. eexists _, _.
    refine (conj _ (conj eq_refl _)).
    + rewrite length_app. lia.
    + rewrite length_app. simpl.
      rewrite lookup_app_r by (rewrite length_app; simpl; lia).
      rewrite length_app. simpl. replace (_ - _)%nat with 2%nat by lia. done.
  - intros l0 d0 -> Hl0 Hne.
    assert (Hc0 : client_ctxt w (VRef l0) = (VRef l0, w_heap w)).
    { unfold client_ctxt. simpl. rewrite Hl0. by rewrite bool_decide_eq_false_2. }
    erewrite client_wrapper_forwarding in Hrun; [|exact Hc0|].
    2:{ by apply (inject_trace_context_dict P _ l0 d0 fields). }
    simpl in Hrun. injection Hrun as <- <-. simpl. eexists _, _.
    refine (conj _ (conj eq_refl _)); [lia|].
    rewrite lookup_app_r by lia. replace (_ - _)%nat with 1%nat by lia. done.
  - intros l0 o d0 -> Hl0 Ht Hd.
    assert (Hc0 : client_ctxt w (VRef l0) = (VRef l0, w_heap w)).
    { unfold client_ctxt. simpl. by rewrite Hl0, Ht. }
    erewrite client_wrapper_forwarding in Hrun; [|exact Hc0|].
    2:{ by apply (inject_trace_context_to_dict_new P _ l0 o d0 fields). }
    simpl in Hrun. injection Hrun as <- <-. simpl. eexists _, _.
    refine (conj _ (conj eq_refl _)); [lia|].
    rewrite lookup_app_r by lia. replace (_ - _)%nat with 1%nat by lia. done.
  - intros l0 o lr -> Hl0 Ht Hd.
    assert (Hc0 : client_ctxt w (VRef l0) = (VRef l0, w_heap w)).
    { unfold client_ctxt. simpl. by rewrite Hl0, Ht. }
    split.
    + intros d0 Hr.
      erewrite client_wrapper_forwarding in Hrun; [|exact Hc0|].
      2:{ by apply (inject_trace_context_to_dict_held_dict P _ l0 o lr d0 fields). }
      simpl in Hrun. injection Hrun as <- <-. simpl. eexists. split; [done|].
      apply list_lookup_insert_eq. rewrite length_app.
      apply lookup_lt_Some in Hr. lia.
    + intros o2 Hr Hs.
      erewrite client_wrapper_forwarding in Hrun; [|exact Hc0|].
      2:{ by apply (inject_trace_context_to_dict_held_object P _ l0 o lr o2 fields). }
      simpl in Hrun. injection Hrun as <- <-. simpl. eexists. split; [done|].
      apply list_lookup_insert_eq. rewrite length_app.
      apply lookup_lt_Some in Hr. lia.
Qed.

End ClientContext.



Lemma client_forwarded_context_shape_witness :
  (let run := _wrap_client_method ids_propagator (call_client op_ok) "call" no_target
                (VRef 0) (VStr "get_status") ∅ world_request_context in
   ∃ l carrier,
     (length (w_heap world_request_context) ≤ l)%nat ∧
     w_calls run.2 = w_calls world_request_context
                       ++ [CallClient no_target (VRef l) (VStr "get_status") ∅] ∧
     w_heap run.2 !! l
       = Some (HDict (<[TRACE_CONTEXT_KEY := carrier]> {[ "user" := VStr "alice" ]})))
  ∧
  (let run := _wrap_client_method ids_propagator (call_client op_ok) "call" no_target
                (VRef 0) (VStr "get_status") ∅ world_mapping_context in
   ∃ carrier,
     w_calls run.2 = w_calls world_mapping_context
                       ++ [CallClient no_target (VRef 0) (VStr "get_status") ∅] ∧
     w_heap run.2 !! 0%nat
       = Some (HObj (assign_item mapping_context TRACE_CONTEXT_KEY carrier))).
Proof.
  split; intros run.
  - apply (proj1 (proj2 (proj2
             (client_forwarded_context_shape ids_propagator op_ok "call" no_target (VRef 0)
                (VStr "get_status") ∅ world_request_context run.1 run.2
                {[ "trace_id" := VInt 1; "span_id" := VInt 2 ]}
                eq_refl (surjective_pairing run))))
             0%nat request_context);
      reflexivity.
  - apply (proj2 (proj2 (proj2 (proj2
             (client_forwarded_context_shape ids_propagator op_ok "call" no_target (VRef 0)
                (VStr "get_status") ∅ world_mapping_context run.1 run.2
                {[ "trace_id" := VInt 1; "span_id" := VInt 2 ]}
                eq_refl (surjective_pairing run))))
             0%nat mapping_context 0%nat eq_refl eq_refl eq_refl eq_refl)
             mapping_context);
      reflexivity.
Defined.

(** C10 as stated fails.  A truthy context that is a mapping object whose
    [to_dict] returns the object itself is forwarded as that object: the
    wrapped operation receives the caller's context, an object and not a
    plain dict, with the key written into it.  And a falsy object with
    [to_dict] is replaced by [{}]: what is forwarded holds the carrier
    alone, not the object's dict form. *)
Lemma client_forwards_context_object_itself :
  let run := _wrap_client_method ids_propagator (call_client op_ok) "call" no_target
               (VRef 0) (VStr "get_status") ∅ world_mapping_context in
  let run' := _wrap_client_method ids_propagator (call_client op_ok) "call" no_target
                (VRef 0) (VStr "get_status") ∅ world_falsy_context in
  w_heap world_mapping_context !! 0%nat = Some (HObj mapping_context) ∧
  w_calls run.2 = [CallClient no_target (VRef 0) (VStr "get_status") ∅] ∧
  w_heap run.2 !! 0%nat
    = Some (HObj (assign_item mapping_context TRACE_CONTEXT_KEY (VRef 1))) ∧
  w_calls run'.2 = [CallClient no_target (VRef 4) (VStr "get_status") ∅] ∧
  w_heap run'.2 !! 4%nat = Some (HDict {[ TRACE_CONTEXT_KEY := VRef 2 ]}).
Proof. by vm_compute. Qed.

(** ** Server wrapper *)

Section Server.
Variable P : Propagator.

(** Normalising the incoming context only adds objects to the store. *)
Lemma normalize_incoming_ctxt_effects ctxt w r w' :
  normalize_incoming_ctxt ctxt w = (r, w') →
  same_tracing w w' ∧ w_heap w `prefix_of` w_heap w'.
Proof.
  unfold normalize_incoming_ctxt, call_to_dict, py_dict, same_tracing.
  munfold. simpl. intros H.
  repeat (case_match; simplify_eq/=); split; try done; by eexists.
Qed.

(** A dict context is copied. *)
Lemma normalize_incoming_ctxt_dict (w : world) l d :
  w_heap w !! l = Some (HDict d) →
  normalize_incoming_ctxt (VRef l) w =
  (Ok (VRef (length (w_heap w))), with_heap w (w_heap w ++ [HDict d])).
Proof.
  intros Hl. unfold normalize_incoming_ctxt, py_dict. munfold. simpl.
  rewrite Hl. simpl. by rewrite Hl.
Qed.

Lemma extract_parent_present (w : world) l d c :
  w_heap w !! l = Some (HDict d) → d !! TRACE_CONTEXT_KEY = Some c →
  extract_parent P (VRef l) w =
  (match p_extract P (w_heap w) c with
   | Ok ctx => Ok (Some ctx)
   | Raise e => Raise e
   end, w).
Proof.
  intros Hl Hd. unfold extract_parent, py_contains, getitem, extract.
  munfold. simpl. rewrite Hl.
  assert (d ≠ ∅) by (intros ->; by rewrite lookup_empty in Hd).
  rewrite bool_decide_eq_false_2 by done. simpl. rewrite Hl.
  rewrite bool_decide_eq_true_2 by eauto. rewrite Hl, Hd.
  by destruct (p_extract P (w_heap w) c).
Qed.

Lemma extract_parent_absent (w : world) l d :
  w_heap w !! l = Some (HDict d) → d !! TRACE_CONTEXT_KEY = None →
  extract_parent P (VRef l) w = (Ok None, w).
Proof.
  intros Hl Hd. unfold extract_parent, py_contains. munfold. simpl.
  rewrite Hl. destruct (bool_decide (d = ∅)); simpl; [done|]. rewrite Hl.
  rewrite bool_decide_eq_false_2; [done|]. rewrite Hd. by intros [? ?].
Qed.

Lemma py_get_world message key dflt w : (py_get message key dflt w).2 = w.
Proof.
  unfold py_get. munfold. simpl. repeat (case_match; simplify_eq/=); done.
Qed.

Lemma py_get_run message key dflt w method :
  (py_get message key dflt w).1 = Ok method →
  py_get message key dflt w = (Ok method, w).
Proof.
  intros H. rewrite (surjective_pairing (py_get _ _ _ _)), H. by rewrite py_get_world.
Qed.

(** C4. For an incoming message that lacks [ctxt] or [message], the server
    wrapper is the original handler: it is called with the message as
    received, its outcome is the wrapper's, and no span operation is
    performed. *)
Theorem server_passes_unrecognised_through
    (orig : server_method) (op : server_op) self incoming w :
  inc_ctxt incoming = None ∨ inc_message incoming = None →
  _wrap_server_process_incoming P orig self incoming w = orig self incoming w ∧
  _wrap_server_process_incoming P (call_server op) self incoming w =
    (op (w_heap w) self incoming,
     World (w_heap w) (w_active w) (w_next_id w) (w_spans w)
       (w_calls w ++ [CallServer self incoming])).
Proof.
  intros H.
  assert (Hgen : ∀ o : server_method,
             _wrap_server_process_incoming P o self incoming w = o self incoming w).
  { intros o. unfold _wrap_server_process_incoming.
    destruct H as [H|H]; rewrite H; [done|]. by destruct (inc_ctxt incoming). }
  split; [apply Hgen|]. by rewrite Hgen.
Qed.

(** The server wrapper's run once context, parent and method are known:
    the handler is called in the world inside the span, whose context is
    written out. *)
Lemma server_wrapper_inside (orig : server_method) self incoming ctxt message
    (w w1 : world) cd ctx method :
  inc_ctxt incoming = Some ctxt → inc_message incoming = Some message →
  normalize_incoming_ctxt ctxt w = (Ok cd, w1) →
  extract_parent P cd w1 = (Ok ctx, w1) →
  (py_get message "method" (VStr "unknown") w1).1 = Ok method →
  let inside :=
    World (w_heap w1) (Some (started_span w (default (w_active w) ctx)))
      (w_next_id w + 2)%N (w_spans w ++ server_span_ops ctx self method) (w_calls w) in
  let run := orig self incoming inside in
  _wrap_server_process_incoming P orig self incoming w =
  (run.1, World (w_heap run.2) (w_active w) (w_next_id run.2)
            (w_spans run.2 ++ handled run.1 ++ [OpEnd]) (w_calls run.2)).
Proof.
  intros Hc Hm Hn He Hg. rewrite (server_wrapper_unfold P _ _ _ _ _ _ Hc Hm).
  rewrite Hn, He, (py_get_run _ _ _ _ _ Hg).
  destruct (normalize_incoming_ctxt_effects _ _ _ _ Hn) as [(Ha & Hi & Hs & Hcs) _].
  unfold in_span, leave_span, started_span, new_span_context.
  rewrite Ha, Hi, Hs, Hcs. simpl. by destruct (orig self incoming _).
Qed.

(** C5, as the code has it. When the incoming context normalises to a
    mapping without the reserved key, nothing is raised on account of the
    missing key: the wrapper starts a SERVER span passing no parent context
    ([context=None]), calls the handler inside it, and its outcome is the
    handler's.  The tracer resolves [context=None] against the context that
    is current where the message is dispatched: the span opens a new trace
    when no span is current there, and joins the trace of the current span
    when there is one. *)
Theorem server_span_parent_when_key_missing
    (orig : server_method) self incoming ctxt message (w w1 : world) l d method :
  inc_ctxt incoming = Some ctxt → inc_message incoming = Some message →
  normalize_incoming_ctxt ctxt w = (Ok (VRef l), w1) →
  w_heap w1 !! l = Some (HDict d) → d !! TRACE_CONTEXT_KEY = None →
  (py_get message "method" (VStr "unknown") w1).1 = Ok method →
  let span :=
    {| trace_id := match w_active w with
                   | Some current => trace_id current
                   | None => w_next_id w
                   end;
       span_id := (w_next_id w + 1)%N |} in
  let inside :=
    World (w_heap w1) (Some span) (w_next_id w + 2)%N
      (w_spans w
         ++ [OpStart ("oslo_messaging.rpc.server." +:+ py_str method) SERVER None;
             OpSetAttribute "rpc.method" method;
             OpSetAttribute "rpc.system" (VStr "oslo_messaging");
             OpSetAttribute "rpc.service" (getattr_target self)])
      (w_calls w) in
  let run := orig self incoming inside in
  _wrap_server_process_incoming P orig self incoming w =
  (run.1, World (w_heap run.2) (w_active w) (w_next_id run.2)
            (w_spans run.2 ++ handled run.1 ++ [OpEnd]) (w_calls run.2)).
Proof.
  intros Hc Hm Hn Hl Hd Hg.
  apply (server_wrapper_inside orig self incoming ctxt message w w1 (VRef l) None method);
    try done.
  by apply (extract_parent_absent w1 l d).
Qed.

(** C7, as the code has it. For an incoming message with [ctxt] and
    [message]: a context that has neither [to_dict] nor [get] and whose
    [dict()] conversion raises a TypeError or a ValueError counts as no
    context, and a dict context without the reserved key has no carrier;
    in both cases the span is started with [context=None], so it joins the
    trace of the span current at the dispatch or, when there is none, opens
    a new one, and the handler runs.  An exception raised by [to_dict()],
    or by [extract] on the stored carrier in the store of the run, is not
    caught: it reaches the caller of the dispatch, no span is started and
    the handler is not called. *)
Theorem server_conversion_failures
    (orig : server_method) self incoming ctxt message (w : world) :
  inc_ctxt incoming = Some ctxt → inc_message incoming = Some message →
  (∀ e method,
     hasattr_to_dict (w_heap w) ctxt = false → hasattr_get (w_heap w) ctxt = false →
     dict_items (w_heap w) ctxt = Raise e →
     isinstance e TypeError || isinstance e ValueError = true →
     (py_get message "method" (VStr "unknown") w).1 = Ok method →
     let inside :=
       World (w_heap w) (Some (started_span w (w_active w))) (w_next_id w + 2)%N
         (w_spans w ++ server_span_ops None self method) (w_calls w) in
     let run := orig self incoming inside in
     _wrap_server_process_incoming P orig self incoming w =
     (run.1, World (w_heap run.2) (w_active w) (w_next_id run.2)
               (w_spans run.2 ++ handled run.1 ++ [OpEnd]) (w_calls run.2)))
  ∧ (∀ l d method,
       ctxt = VRef l → w_heap w !! l = Some (HDict d) →
       d !! TRACE_CONTEXT_KEY = None →
       (py_get message "method" (VStr "unknown")
          (with_heap w (w_heap w ++ [HDict d]))).1 = Ok method →
       let inside :=
         World (w_heap w ++ [HDict d]) (Some (started_span w (w_active w)))
           (w_next_id w + 2)%N
           (w_spans w ++ server_span_ops None self method) (w_calls w) in
       let run := orig self incoming inside in
       _wrap_server_process_incoming P orig self incoming w =
       (run.1, World (w_heap run.2) (w_active w) (w_next_id run.2)
                 (w_spans run.2 ++ handled run.1 ++ [OpEnd]) (w_calls run.2)))
  ∧ (∀ l o e,
       ctxt = VRef l → w_heap w !! l = Some (HObj o) →
       ob_to_dict o = Some (ToDictRaise e) →
       _wrap_server_process_incoming P orig self incoming w = (Raise e, w))
  ∧ (∀ l d c e,
       ctxt = VRef l → w_heap w !! l = Some (HDict d) →
       d !! TRACE_CONTEXT_KEY = Some c →
       p_extract P (w_heap w ++ [HDict d]) c = Raise e →
       _wrap_server_process_incoming P orig self incoming w =
       (Raise e, with_heap w (w_heap w ++ [HDict d]))).
Proof.
  intros Hc Hm. split; [|split; [|split]].
  - intros e method Htd Hget Hd He Hg.
    assert (Hn : normalize_incoming_ctxt ctxt w = (Ok VNone, w)).
    { unfold normalize_incoming_ctxt, py_dict. munfold. simpl.
      rewrite Htd, Hget.
      destruct (bool_decide (ctxt = VNone)); simpl; [done|].
      rewrite Hd, orb_false_r. by rewrite He. }
    by apply (server_wrapper_inside orig self incoming ctxt message w w VNone None method).
  - intros l d method -> Hl Hd Hg.
    apply (server_wrapper_inside orig self incoming (VRef l) message w
             (with_heap w (w_heap w ++ [HDict d])) (VRef (length (w_heap w))) None method);
      try done.
    + by apply normalize_incoming_ctxt_dict.
    + apply (extract_parent_absent _ (length (w_heap w)) d); [|done].
      by apply list_lookup_middle.
  - intros l o e -> Hl Ht.
    rewrite (server_wrapper_unfold P _ _ _ _ _ _ Hc Hm).
    unfold normalize_incoming_ctxt, call_to_dict. munfold. simpl.
    rewrite Hl, Ht. rewrite bool_decide_eq_true_2 by eauto. simpl.
    by rewrite Hl, Ht.
  - intros l d c e -> Hl Hd He.
    rewrite (server_wrapper_unfold P _ _ _ _ _ _ Hc Hm).
    rewrite (normalize_incoming_ctxt_dict w l d Hl).
    erewrite extract_parent_present; [|by apply list_lookup_middle|done]. simpl.
    by rewrite He.
Qed.

End Server.

Section RoundTrip.
Variable P : Propagator.

(** C2. If client-side injection, run in the active context [C], returns
    the context dict [C'], and the server wrapper receives a message
    whose normalised context has the items of [C'], then the value the
    server hands to [extract] is the carrier the client stored under the
    reserved key; with a propagator that loses nothing, the parent context
    of the server span is [C]. *)
Theorem carrier_round_trip
    ctxt (w w1 : world) l d
    op self incoming sctxt message (ws ws1 : world) l2 method :
  lossless P →
  store_closed (w_heap w) = true →
  _inject_trace_context P ctxt w = (Ok (VRef l), w1) →
  w_heap w1 !! l = Some (HDict d) →
  w_heap w1 `prefix_of` w_heap ws →
  inc_ctxt incoming = Some sctxt → inc_message incoming = Some message →
  normalize_incoming_ctxt sctxt ws = (Ok (VRef l2), ws1) →
  w_heap ws1 !! l2 = Some (HDict d) →
  (py_get message "method" (VStr "unknown") ws1).1 = Ok method →
  let carrier := VRef (length (w_heap w)) in
  d !! TRACE_CONTEXT_KEY = Some carrier ∧
  extract_parent P (VRef l2) ws1 =
    (match p_extract P (w_heap ws1) carrier with
     | Ok ctx => Ok (Some ctx)
     | Raise e => Raise e
     end, ws1) ∧
  p_extract P (w_heap ws1) carrier = Ok (w_active w) ∧
  ∃ r ws',
    _wrap_server_process_incoming P (call_server op) self incoming ws = (r, ws') ∧
    w_spans ws' = w_spans ws ++ server_span_ops (Some (w_active w)) self method
                    ++ handled r ++ [OpEnd].
Proof.
  intros Hloss Hclosed Hinj Hl Hpre Hc Hm Hn Hl2 Hg carrier.
  destruct (inject_trace_context_result _ _ _ _ _ Hinj) as (l' & [= <-] & Hh).
  pose proof (holds_under_dict _ _ _ _ _ Hl Hh) as Hd'.
  destruct (inject_trace_context_carrier _ _ _ _ _ (store_closed_closed _ Hclosed) Hinj)
    as (fields & Hf & Hcar).
  destruct (normalize_incoming_ctxt_effects _ _ _ _ Hn) as [(Ha & Hi & Hs & Hcs) Hpre1].
  assert (Hcar1 : w_heap ws1 !! length (w_heap w) = Some (HDict fields)).
  { eapply prefix_lookup_Some; [exact Hpre1|].
    eapply prefix_lookup_Some; [exact Hpre|done]. }
  pose proof (Hloss _ _ _ _ Hf Hcar1) as Hext.
  pose proof (extract_parent_present P ws1 l2 d carrier Hl2 Hd') as Hep.
  split; [done|]. split; [done|]. split; [done|].
  rewrite (server_wrapper_unfold P _ _ _ _ _ _ Hc Hm), Hn, Hep.
  fold carrier in Hext. rewrite Hext, (py_get_run _ _ _ _ _ Hg).
  unfold call_server. eexists _, _. split; [done|]. simpl.
  by rewrite Hs, <- app_assoc.
Qed.

End RoundTrip.

Lemma ids_propagator_lossless : lossless ids_propagator.
Proof.
  intros h l c fields [= <-] Hl. simpl. rewrite Hl.
  destruct c as [[t s]|]; simpl.
  - rewrite lookup_insert_eq, lookup_insert_ne by done.
    rewrite lookup_singleton_eq. by rewrite !N2Z.id.
  - by rewrite lookup_empty.
Qed.

Lemma carrier_round_trip_witness :
  p_extract ids_propagator (w_heap (normalize_incoming_ctxt (VRef 2) world_receiving).2)
    (VRef 0) = Ok (Some {| trace_id := 7; span_id := 8 |}).
Proof.
  refine (proj1 (proj2 (proj2
    (carrier_round_trip ids_propagator VNone world_active world_after_injection 2
       {[ TRACE_CONTEXT_KEY := VRef 0 ]}
       handler_ok no_target received_message (VRef 2) (VRef 3) world_receiving
       (normalize_incoming_ctxt (VRef 2) world_receiving).2 4 (VStr "get_status")
       ids_propagator_lossless _ _ _ _ _ _ _ _ _)))).
  all: try reflexivity.
  by exists [HDict {[ "method" := VStr "get_status" ]}].
Defined.

Lemma server_passes_unrecognised_through_witness :
  _wrap_server_process_incoming ids_propagator (call_server handler_ok) no_target
    unrecognised_message world_server =
  (Ok (VStr "done"),
   World (w_heap world_server) None 1 [] [CallServer no_target unrecognised_message]).
Proof.
  apply (server_passes_unrecognised_through ids_propagator (call_server handler_ok)
           handler_ok no_target unrecognised_message world_server).
  left. reflexivity.
Defined.

Lemma server_span_parent_when_key_missing_witness :
  _wrap_server_process_incoming ids_propagator handler_reporting_trace no_target
    plain_message world_server =
  (Ok (VInt 1),
   World (w_heap world_server ++ [HDict {[ "user" := VStr "alice" ]}]) None 3
     [OpStart "oslo_messaging.rpc.server.get_status" SERVER None;
      OpSetAttribute "rpc.method" (VStr "get_status");
      OpSetAttribute "rpc.system" (VStr "oslo_messaging");
      OpSetAttribute "rpc.service" VNone;
      OpEnd] [])
  ∧
  _wrap_server_process_incoming ids_propagator handler_reporting_trace no_target
    plain_message world_server_in_span =
  (Ok (VInt 7),
   World (w_heap world_server_in_span ++ [HDict {[ "user" := VStr "alice" ]}])
     (Some {| trace_id := 7; span_id := 8 |}) 11
     [OpStart "oslo_messaging.rpc.server.get_status" SERVER None;
      OpSetAttribute "rpc.method" (VStr "get_status");
      OpSetAttribute "rpc.system" (VStr "oslo_messaging");
      OpSetAttribute "rpc.service" VNone;
      OpEnd] []).
Proof.
  split.
  - apply (server_span_parent_when_key_missing ids_propagator handler_reporting_trace
             no_target plain_message (VRef 0) (VRef 1) world_server
             (with_heap world_server
                (w_heap world_server ++ [HDict {[ "user" := VStr "alice" ]}]))
             2 {[ "user" := VStr "alice" ]} (VStr "get_status"));
      reflexivity.
  - apply (server_span_parent_when_key_missing ids_propagator handler_reporting_trace
             no_target plain_message (VRef 0) (VRef 1) world_server_in_span
             (with_heap world_server_in_span
                (w_heap world_server_in_span ++ [HDict {[ "user" := VStr "alice" ]}]))
             2 {[ "user" := VStr "alice" ]} (VStr "get_status"));
      reflexivity.
Defined.

(** C5 as stated fails: the context is a dict without the reserved key,
    yet the server span is not the root of a new trace.  A span, (7, 8), is
    current where the message is dispatched; the wrapper passes no parent,
    the tracer takes the current span as the parent, and the handler runs
    in trace 7. *)
Lemma server_span_joins_current_trace :
  let run := _wrap_server_process_incoming ids_propagator handler_reporting_trace
               no_target plain_message world_server_in_span in
  inc_ctxt plain_message = Some (VRef 0) ∧
  w_heap world_server_in_span !! 0%nat = Some (HDict {[ "user" := VStr "alice" ]}) ∧
  ({[ "user" := VStr "alice" ]} : gmap string value) !! TRACE_CONTEXT_KEY = None ∧
  w_active world_server_in_span = Some {| trace_id := 7; span_id := 8 |} ∧
  run.1 = Ok (VInt 7) ∧
  w_spans run.2 =
    [OpStart "oslo_messaging.rpc.server.get_status" SERVER None;
     OpSetAttribute "rpc.method" (VStr "get_status");
     OpSetAttribute "rpc.system" (VStr "oslo_messaging");
     OpSetAttribute "rpc.service" VNone;
     OpEnd].
Proof. by vm_compute. Qed.

Lemma server_conversion_failures_witness :
  _wrap_server_process_incoming ids_propagator handler_reporting_trace no_target
    int_ctxt_message world_server_in_span =
  (Ok (VInt 7),
   World (w_heap world_server_in_span) (Some {| trace_id := 7; span_id := 8 |}) 11
     (server_span_ops None no_target (VStr "get_status") ++ [OpEnd]) [])
  ∧
  _wrap_server_process_incoming strict_propagator (call_server handler_ok) no_target
    plain_message world_malformed_carrier =
  (Raise (Exn AttributeError "get"),
   with_heap world_malformed_carrier
     (w_heap world_malformed_carrier ++ [HDict {[ "_trace_context" := VStr "garbage" ]}])).
Proof.
  split.
  - apply (proj1 (server_conversion_failures ids_propagator handler_reporting_trace
                    no_target int_ctxt_message (VInt 5) (VRef 1) world_server_in_span
                    eq_refl eq_refl)
             (type_error "object is not iterable") (VStr "get_status"));
      reflexivity.
  - apply (proj2 (proj2 (proj2
             (server_conversion_failures strict_propagator (call_server handler_ok)
                no_target plain_message (VRef 0) (VRef 1) world_malformed_carrier
                eq_refl eq_refl)))
             0%nat {[ "_trace_context" := VStr "garbage" ]} (VStr "garbage")
             (Exn AttributeError "get"));
      reflexivity.
Defined.

(** C7 as stated fails: a context whose [to_dict] raises makes the
    dispatch raise; the handler is never called and no span is started. *)
Lemma server_to_dict_failure_reaches_caller :
  let run := _wrap_server_process_incoming ids_propagator (call_server handler_ok)
               no_target plain_message world_broken in
  inc_ctxt plain_message = Some (VRef 0) ∧
  w_heap world_broken !! 0%nat = Some (HObj broken_context) ∧
  run.1 = Raise (Exn RuntimeError "to_dict failed") ∧
  w_calls run.2 = [] ∧ w_spans run.2 = [].
Proof. by vm_compute. Qed.

(** ** Installation *)

(** Every attribute of the client class after [_instrument_client]. *)
Lemma instrument_client_lookup (cls : gmap string attr) srv i :
  rpc_client (_instrument_client {| rpc_client := Some cls; rpc_server := srv |})
    ≫= (.!! i)
  = if decide (i = "_inject_trace_context")
    then Some (default InjectMethod (cls !! "_inject_trace_context"))
    else if decide (i = "cast" ∨ i = "call")
         then (λ a, ClientWrapper a i) <$> cls !! i
         else cls !! i.
Proof.
  unfold _instrument_client. simpl.
  destruct (cls !! "cast") as [k|] eqn:Hcast;
    destruct (cls !! "call") as [c|] eqn:Hcall;
    destruct (cls !! "_inject_trace_context") as [j|] eqn:Hinj.
  all: rewrite ?lookup_insert_ne by done; rewrite ?Hcall.
  all: rewrite ?lookup_insert_ne by done; rewrite ?Hinj.
  all: first [ rewrite (bool_decide_eq_true_2 (is_Some (Some _))) by eauto
             | rewrite (bool_decide_eq_false_2 (is_Some None)) by (by intros [? ?]) ].
  all: destruct (decide (i = "_inject_trace_context")) as [->|Hi];
       [rewrite ?lookup_insert_eq; rewrite ?lookup_insert_ne by done; by rewrite ?Hinj|].
  all: rewrite ?(lookup_insert_ne _ "_inject_trace_context") by done.
  all: destruct (decide (i = "call")) as [->|Hc];
       [rewrite decide_True by (by right); rewrite ?lookup_insert_eq;
        rewrite ?lookup_insert_ne by done; by rewrite Hcall|].
  all: rewrite ?(lookup_insert_ne _ "call") by done.
  all: destruct (decide (i = "cast")) as [->|Hk];
       [rewrite decide_True by (by left); rewrite ?lookup_insert_eq; by rewrite Hcast|].
  all: rewrite ?(lookup_insert_ne _ "cast") by done.
  all: by rewrite decide_False by (by intros [?|?]).
Qed.

(** [unwrap] only replaces a wrapt proxy. *)
Lemma utils_unwrap_not_proxy (cls : gmap string attr) name :
  (∀ n o, cls !! name ≠ Some (Proxy n o)) →
  (if bool_decide (is_Some (cls !! name)) then utils_unwrap cls name else cls) = cls.
Proof.
  intros H. unfold utils_unwrap. destruct (cls !! name) as [a|] eqn:Ha.
  - rewrite bool_decide_eq_true_2 by eauto. destruct a; try done. by destruct (H name0 a).
  - by rewrite bool_decide_eq_false_2 by (by intros [? ?]).
Qed.

Lemma utils_unwrap_keeps : keeps_unwrapped utils_unwrap.
Proof. intros cls name a Ha Hw. unfold utils_unwrap. rewrite Ha. by destruct a. Qed.

(** [_uninstrument_client] on a class whose [cast] and [call] are not
    proxies: all it does is delete [_inject_trace_context]. *)
Lemma uninstrument_client_without_proxies (cls : gmap string attr) srv :
  (∀ name n o, name = "cast" ∨ name = "call" → cls !! name ≠ Some (Proxy n o)) →
  _uninstrument_client utils_unwrap {| rpc_client := Some cls; rpc_server := srv |} =
  {| rpc_client := Some (delete "_inject_trace_context" cls); rpc_server := srv |}.
Proof.
  intros H. unfold _uninstrument_client. simpl.
  rewrite (utils_unwrap_not_proxy cls "cast") by (intros n o; apply H; by left).
  rewrite (utils_unwrap_not_proxy cls "call") by (intros n o; apply H; by right).
  destruct (cls !! "_inject_trace_context") as [j|] eqn:Hj.
  - by rewrite bool_decide_eq_true_2 by eauto.
  - rewrite bool_decide_eq_false_2 by (by intros [? ?]). by rewrite delete_id.
Qed.

Lemma server_wrapper_not_itself p : ServerWrapper p ≠ p.
Proof. induction p; intros H; try discriminate. injection H. done. Qed.

(** Calling an attribute the library defines performs no span operation. *)
Lemma native_call_no_span P nc ni cls n self ctxt method kwargs w :
  w_spans (client_behaviour P nc ni cls (Native n) self ctxt method kwargs w).2 = w_spans w.
Proof. done. Qed.

(** [_wrap_client_method] is the wrapper with the instrumentor's method
    as [self._inject_trace_context]. *)
Lemma wrap_client_method_calling P original_method method_name :
  _wrap_client_method P original_method method_name =
  client_wrapper_calling (_inject_trace_context P) original_method method_name.
Proof. reflexivity. Qed.

(** With the instrumentor's method installed on the class, calling a
    wrapper is running [_wrap_client_method]'s wrapper. *)
Lemma client_wrapper_with_inject P nc ni (cls : gmap string attr) a mn :
  cls !! "_inject_trace_context" = Some InjectMethod →
  client_behaviour P nc ni cls (ClientWrapper a mn) =
  _wrap_client_method P (client_behaviour P nc ni cls a) mn.
Proof. intros H. simpl. unfold inject_attribute. by rewrite H. Qed.

(** A wrapper called on a class without [_inject_trace_context]: the
    attribute lookup of line 197 fails inside the span, before the wrapped
    callable is reached. *)
Lemma client_wrapper_without_inject P nc ni (cls : gmap string attr) a mn
    self ctxt method kwargs w :
  cls !! "_inject_trace_context" = None →
  client_behaviour P nc ni cls (ClientWrapper a mn) self ctxt method kwargs w =
  (Raise (Exn AttributeError "_inject_trace_context"),
   World (client_ctxt w ctxt).2 (w_active w) (w_next_id w + 2)%N
     (w_spans w ++ client_span_ops mn self method ++ [OpEnd]) (w_calls w)).
Proof.
  intros H. simpl. unfold client_wrapper_calling, inject_attribute. rewrite H.
  unfold start_as_current_span, set_attribute, client_ctxt, client_span_ops,
    log_span, set_active.
  munfold. simpl.
  destruct (truthy (w_heap w) ctxt); simpl; by rewrite <- !app_assoc.
Qed.

(** C9. Instrumenting and then uninstrumenting does not restore the
    classes.  [unwrap] only undoes a wrapt proxy, and the wrappers this
    module installs with [setattr] are [functools.wraps] closures: after
    [_uninstrument] the wrappers of [cast], [call] and [_process_incoming]
    are still installed, so the classes differ from what they were, while
    [_inject_trace_context] has been deleted (also one the class had of its
    own).  A later [cast] or [call] therefore starts a span and raises
    AttributeError where the wrapper looks up [self._inject_trace_context],
    without reaching the wrapped callable. *)
Theorem uninstrument_leaves_wrappers_installed m m1 (cls srv : gmap string attr) :
  rpc_client m = Some cls → rpc_server m = Some srv →
  _instrument m = Ok m1 →
  ∃ (cls' srv' : gmap string attr) p,
    _uninstrument utils_unwrap m1 = {| rpc_client := Some cls'; rpc_server := Some srv' |} ∧
    _uninstrument utils_unwrap m1 ≠ m ∧
    srv !! "_process_incoming" = Some p ∧
    srv' !! "_process_incoming" = Some (ServerWrapper p) ∧
    cls' !! "_inject_trace_context" = None ∧
    ∀ name a, name = "cast" ∨ name = "call" → cls !! name = Some a →
      cls' !! name = Some (ClientWrapper a name) ∧
      ∀ P nc ni self ctxt method kwargs w,
        let run := client_behaviour P nc ni cls' (ClientWrapper a name)
                     self ctxt method kwargs w in
        run.1 = Raise (Exn AttributeError "_inject_trace_context") ∧
        w_calls run.2 = w_calls w ∧
        w_spans run.2 = w_spans w ++ client_span_ops name self method ++ [OpEnd].
Proof.
  destruct m as [c s]. simpl. intros -> -> Hins.
  unfold _instrument in Hins.
  pose proof (instrument_client_lookup cls (Some srv)) as Hlook.
  remember (_instrument_client {| rpc_client := Some cls; rpc_server := Some srv |})
    as mc eqn:Hmc.
  assert (Hs : rpc_server mc = Some srv) by (by subst mc).
  assert (Hc : ∃ cls1, rpc_client mc = Some cls1) by (subst mc; simpl; eauto).
  destruct Hc as [cls1 Hc]. destruct mc as [c1 s1]. simpl in Hs, Hc. subst c1 s1.
  simpl in Hlook. clear Hmc.
  unfold _instrument_server in Hins. simpl in Hins.
  destruct (srv !! "_process_incoming") as [p|] eqn:Hp; [|done].
  injection Hins as <-.
  assert (Hnp : ∀ name n o, name = "cast" ∨ name = "call" → cls1 !! name ≠ Some (Proxy n o)).
  { intros name n o Hname. rewrite Hlook.
    rewrite decide_False by (by destruct Hname as [-> | ->]).
    rewrite decide_True by done. by destruct (cls !! name). }
  unfold _uninstrument. rewrite (uninstrument_client_without_proxies _ _ Hnp).
  unfold _uninstrument_server. simpl. rewrite lookup_insert_eq.
  rewrite bool_decide_eq_true_2 by eauto.
  unfold utils_unwrap. rewrite lookup_insert_eq.
  eexists _, _, p. split; [done|]. split; [|split; [done|split; [|split]]].
  - intros [= _ H]. apply (f_equal (.!! "_process_incoming")) in H.
    rewrite lookup_insert_eq, Hp in H. injection H as H.
    by apply server_wrapper_not_itself in H.
  - by rewrite lookup_insert_eq.
  - by rewrite lookup_delete_eq.
  - intros name a Hname Ha. split.
    + rewrite lookup_delete_ne by (by destruct Hname as [-> | ->]).
      rewrite Hlook. rewrite decide_False by (by destruct Hname as [-> | ->]).
      rewrite decide_True by done. by rewrite Ha.
    + intros P nc ni self ctxt method kwargs w.
      assert (Hdel : delete "_inject_trace_context" cls1 !! "_inject_trace_context"
                     = None) by (by rewrite lookup_delete_eq).
      pose proof (client_wrapper_without_inject P nc ni _ a name self ctxt method
                    kwargs w Hdel) as Hrun.
      simpl in Hrun. by rewrite Hrun.
Qed.

Lemma uninstrument_leaves_wrappers_installed_witness :
  ∃ (cls' srv' : gmap string attr) p,
    _uninstrument utils_unwrap instrumented_pristine
      = {| rpc_client := Some cls'; rpc_server := Some srv' |} ∧
    _uninstrument utils_unwrap instrumented_pristine ≠ pristine_modules ∧
    ({[ "_process_incoming" := Native "_process_incoming" ]} : gmap string attr)
      !! "_process_incoming" = Some p ∧
    srv' !! "_process_incoming" = Some (ServerWrapper p) ∧
    cls' !! "_inject_trace_context" = None ∧
    ∀ name a, name = "cast" ∨ name = "call" →
      ({[ "cast" := Native "cast"; "call" := Native "call" ]} : gmap string attr)
        !! name = Some a →
      cls' !! name = Some (ClientWrapper a name) ∧
      ∀ P nc ni self ctxt method kwargs w,
        let run := client_behaviour P nc ni cls' (ClientWrapper a name)
                     self ctxt method kwargs w in
        run.1 = Raise (Exn AttributeError "_inject_trace_context") ∧
        w_calls run.2 = w_calls w ∧
        w_spans run.2 = w_spans w ++ client_span_ops name self method ++ [OpEnd].
Proof.
  apply (uninstrument_leaves_wrappers_installed pristine_modules instrumented_pristine
           {[ "cast" := Native "cast"; "call" := Native "call" ]}
           {[ "_process_incoming" := Native "_process_incoming" ]});
    reflexivity.
Defined.

(** The round trip on the two classes as the library defines them: the
    wrappers stay, the injection method goes, and a call that returned
    ["OK"] before instrumentation now raises, with a span logged and the
    transport never called. *)
Lemma round_trip_breaks_pristine_call :
  let m2 := _uninstrument utils_unwrap instrumented_pristine in
  let before := client_behaviour ids_propagator (fun _ => op_ok)
                  (fun _ => _inject_trace_context ids_propagator)
                  {[ "cast" := Native "cast"; "call" := Native "call" ]}
                  (Native "call") no_target (VRef 0) (VStr "get_status") ∅
                  world_user_dict in
  let after := client_behaviour ids_propagator (fun _ => op_ok)
                 (fun _ => _inject_trace_context ids_propagator)
                 (default ∅ (rpc_client m2))
                 (default (Native "call") (rpc_client m2 ≫= (.!! "call")))
                 no_target (VRef 0) (VStr "get_status") ∅ world_user_dict in
  rpc_client pristine_modules ≫= (.!! "call") = Some (Native "call") ∧
  rpc_client m2 ≫= (.!! "call") = Some (ClientWrapper (Native "call") "call") ∧
  rpc_client m2 ≫= (.!! "cast") = Some (ClientWrapper (Native "cast") "cast") ∧
  rpc_client m2 ≫= (.!! "_inject_trace_context") = None ∧
  rpc_server m2 ≫= (.!! "_process_incoming")
    = Some (ServerWrapper (Native "_process_incoming")) ∧
  before.1 = Ok (VStr "OK") ∧ w_spans before.2 = [] ∧
  w_calls before.2 = [CallClient no_target (VRef 0) (VStr "get_status") ∅] ∧
  after.1 = Raise (Exn AttributeError "_inject_trace_context") ∧
  w_calls after.2 = [] ∧
  w_spans after.2 = client_span_ops "call" no_target (VStr "get_status") ++ [OpEnd].
Proof. by vm_compute. Qed.

(** The test of line 111 and the deletion of line 134 do not match: an
    attribute named [_inject_trace_context] that the class had before
    instrumentation is kept by [_instrument] and deleted by
    [_uninstrument]. *)
Lemma uninstrument_deletes_preexisting_inject :
  ∃ m1, _instrument modules_with_own_inject = Ok m1 ∧
        rpc_client modules_with_own_inject ≫= (.!! "_inject_trace_context")
          = Some (Native "_inject_trace_context") ∧
        rpc_client m1 ≫= (.!! "_inject_trace_context")
          = Some (Native "_inject_trace_context") ∧
        rpc_client (_uninstrument utils_unwrap m1) ≫= (.!! "_inject_trace_context")
          = None.
Proof. eexists. split; [reflexivity|]. by vm_compute. Qed.

(** * Further properties *)

(** ** Client wrapper *)

Section ClientMore.
Variable P : Propagator.

(** X1. Whatever the context and the method: when the operation the
    client wrapper calls returns [v], the wrapper returns [v], and its span
    carries the three attributes and is ended with no exception recorded
    and no status set. *)
Theorem client_result_returned_unchanged op mn self ctxt method kwargs w r w' c v :
  _wrap_client_method P (call_client op) mn self ctxt method kwargs w = (r, w') →
  w_calls w' = w_calls w ++ [CallClient self c method kwargs] →
  op (w_heap w') self c method kwargs = Ok v →
  r = Ok v ∧
  w_spans w' = w_spans w ++ client_span_ops mn self method ++ [OpEnd].
Proof.
  intros Hrun Hcall Hop.
  destruct (client_wrapper_outcome _ _ _ _ _ _ _ _ _ _ Hrun)
    as [(e & _ & Hc & _)|(l & Hc & Hr & Hs & _)].
  - rewrite Hc in Hcall. by apply calls_not_self in Hcall.
  - rewrite Hc in Hcall. apply app_inj_tail in Hcall as [_ [= <-]].
    rewrite Hop in Hr. subst r. split; [done|]. by rewrite Hs.
Qed.

(** X2. On every exit of the client wrapper (normal return, an exception
    of the wrapped callable, a failed injection) the span is ended and the
    trace context that was current before the call is current again; with
    a wrapped operation that does no tracing of its own, the span's log is
    its start, its three attributes, at most the record of one exception
    and an ERROR status, and its end. *)
Theorem client_span_always_ended (orig : client_method) op mn self ctxt method kwargs w :
  (let w' := (_wrap_client_method P orig mn self ctxt method kwargs w).2 in
   w_active w' = w_active w ∧ ∃ ops, w_spans w' = ops ++ [OpEnd])
  ∧
  (let w' := (_wrap_client_method P (call_client op) mn self ctxt method kwargs w).2 in
   ∃ ops, w_spans w' = w_spans w ++ client_span_ops mn self method ++ ops ++ [OpEnd] ∧
          (ops = [] ∨ ∃ e, isinstance e Exception_ = true ∧ ops = error_ops e)).
Proof.
  split.
  - rewrite client_wrapper_unfold.
    destruct (client_ctxt w ctxt) as [c0 h0]. simpl.
    destruct (_inject_trace_context P c0 _) as [[c'|e] w2]; simpl.
    + destruct (orig self c' method kwargs w2) as [r w3]. simpl.
      split; [done|]. exists (w_spans w3 ++ handled r). by rewrite <- app_assoc.
    + split; [done|]. by exists (w_spans w2).
  - destruct (_wrap_client_method P (call_client op) mn self ctxt method kwargs w)
      as [r w'] eqn:Hrun. simpl.
    destruct (client_wrapper_outcome _ _ _ _ _ _ _ _ _ _ Hrun)
      as [(e & _ & _ & Hs)|(l & _ & _ & Hs & _)].
    + exists []. split; [done|]. by left.
    + exists (handled r). split; [done|].
      destruct r as [v|e]; simpl; [by left|].
      destruct (isinstance e Exception_) eqn:He; [|by left].
      right. by exists e.
Qed.

(** X3. The client wrapper never makes up a result: it returns [v] only
    if it called the wrapped operation, once, with the caller's [self],
    [method] and [kwargs], and that call returned [v]. *)
Theorem client_result_comes_from_transport op mn self ctxt method kwargs w w' v :
  _wrap_client_method P (call_client op) mn self ctxt method kwargs w = (Ok v, w') →
  ∃ l, w_calls w' = w_calls w ++ [CallClient self (VRef l) method kwargs] ∧
       op (w_heap w') self (VRef l) method kwargs = Ok v.
Proof.
  intros Hrun.
  destruct (client_wrapper_outcome _ _ _ _ _ _ _ _ _ _ Hrun)
    as [(e & He & _)|(l & Hc & Hr & _)]; [done|].
  exists l. split; [done|]. by rewrite <- Hr.
Qed.

(** The store the injection of the client wrapper starts from, and what a
    successful injection leaves. *)
Lemma client_wrapper_injected op mn self ctxt method kwargs w r w' l :
  _wrap_client_method P (call_client op) mn self ctxt method kwargs w = (r, w') →
  w_calls w' = w_calls w ++ [CallClient self (VRef l) method kwargs] →
  ∃ c0 h0 w2,
    client_ctxt w ctxt = (c0, h0) ∧
    _inject_trace_context P c0
      (with_heap (in_span w (client_span_ops mn self method) None) h0) = (Ok (VRef l), w2) ∧
    w_heap w' = w_heap w2.
Proof.
  rewrite client_wrapper_unfold.
  destruct (client_ctxt w ctxt) as [c0 h0] eqn:Hc0. simpl.
  destruct (_inject_trace_context P c0 _) as [[c'|e] w2] eqn:Hinj.
  - destruct (inject_trace_context_tracing _ _ _ _ _ Hinj) as (_ & _ & _ & Hc).
    unfold call_client. intros [= <- <-]. simpl. rewrite Hc. simpl.
    intros [_ [= ->]]%app_inj_tail. by exists c0, h0, w2.
  - destruct (inject_trace_context_tracing _ _ _ _ _ Hinj) as (_ & _ & _ & Hc).
    intros [= <- <-]. simpl. rewrite Hc. simpl. intros H.
    by apply calls_not_self in H.
Qed.

(** X4. Each call gets a carrier of its own: the value the forwarded
    context holds under the reserved key (as an entry, when it is a dict;
    as the item assigned, when it is a mapping object that [to_dict]
    returned) is an object created during this call, never one the
    caller's store already had. *)
Theorem client_carrier_is_fresh op mn self ctxt method kwargs w r w' l :
  _wrap_client_method P (call_client op) mn self ctxt method kwargs w = (r, w') →
  w_calls w' = w_calls w ++ [CallClient self (VRef l) method kwargs] →
  ∃ lc, holds_under (w_heap w') l TRACE_CONTEXT_KEY (VRef lc) ∧
        (length (w_heap w) ≤ lc < length (w_heap w'))%nat.
Proof.
  intros Hrun Hcall.
  destruct (client_wrapper_injected _ _ _ _ _ _ _ _ _ _ Hrun Hcall)
    as (c0 & h0 & w2 & Hc0 & Hinj & Hh).
  destruct (inject_trace_context_result _ _ _ _ _ Hinj) as (l' & [= <-] & Hd).
  simpl in Hd. exists (length h0). rewrite Hh. split; [done|].
  pose proof (client_ctxt_prefix _ _ _ _ Hc0) as Hpre%prefix_length.
  split; [done|].
  rewrite inject_trace_context_unfold in Hinj. simpl in Hinj.
  destruct (p_inject P _) as [fields|e]; [|done].
  unfold call_to_dict, py_dict, setitem in Hinj. munfold. simpl in Hinj.
  repeat (case_match; simplify_eq/=).
  all: rewrite ?length_insert, ?length_app; simpl; lia.
Qed.

(** What the forwarded context holds, in a store without dangling
    references. *)
Lemma client_forwarded_carrier op mn self ctxt method kwargs w r w' l :
  store_closed (w_heap w) = true →
  _wrap_client_method P (call_client op) mn self ctxt method kwargs w = (r, w') →
  w_calls w' = w_calls w ++ [CallClient self (VRef l) method kwargs] →
  ∃ lc fields,
    holds_under (w_heap w') l TRACE_CONTEXT_KEY (VRef lc) ∧
    w_heap w' !! lc = Some (HDict fields) ∧
    p_inject P (injection_context w) = Ok fields.
Proof.
  intros Hclosed Hrun Hcall.
  destruct (client_wrapper_injected _ _ _ _ _ _ _ _ _ _ Hrun Hcall)
    as (c0 & h0 & w2 & Hc0 & Hinj & Hh).
  destruct (inject_trace_context_result _ _ _ _ _ Hinj) as (l' & [= <-] & Hd).
  assert (Hcl : closed h0)
    by (eapply client_ctxt_closed; [done|by apply store_closed_closed]).
  destruct (inject_trace_context_carrier P c0
              (with_heap (in_span w (client_span_ops mn self method) None) h0)
              _ _ Hcl Hinj) as (fields & Hf & Hcar).
  exists (length h0), fields. by rewrite Hh.
Qed.

(** X5. Injection happens inside the client span: in a store without
    dangling references, the carrier the forwarded context holds under the
    reserved key is a dict with the fields the propagator injects for the
    context of the span just started, not for the caller's ambient
    context. *)
Theorem client_carrier_holds_span_context op mn self ctxt method kwargs w r w' l :
  store_closed (w_heap w) = true →
  _wrap_client_method P (call_client op) mn self ctxt method kwargs w = (r, w') →
  w_calls w' = w_calls w ++ [CallClient self (VRef l) method kwargs] →
  ∃ lc fields,
    holds_under (w_heap w') l TRACE_CONTEXT_KEY (VRef lc) ∧
    w_heap w' !! lc = Some (HDict fields) ∧
    p_inject P (injection_context w) = Ok fields.
Proof. apply client_forwarded_carrier. Qed.

(** X6. For a non-empty dict context the forwarded dict keeps every other
    entry of the caller's dict; an entry the caller already had under the
    reserved key is replaced by the new carrier. *)
Theorem client_keeps_other_entries op mn self method kwargs (w : world) l0 d0 fields r w' :
  w_heap w !! l0 = Some (HDict d0) → d0 ≠ ∅ →
  p_inject P (injection_context w) = Ok fields →
  _wrap_client_method P (call_client op) mn self (VRef l0) method kwargs w = (r, w') →
  ∃ l d,
    w_calls w' = w_calls w ++ [CallClient self (VRef l) method kwargs] ∧
    w_heap w' !! l = Some (HDict d) ∧
    (∀ k, k ≠ TRACE_CONTEXT_KEY → d !! k = d0 !! k) ∧
    d !! TRACE_CONTEXT_KEY = Some (VRef (length (w_heap w))) ∧
    w_heap w' !! length (w_heap w) = Some (HDict fields).
Proof.
  intros Hl0 Hne Hf Hrun.
  assert (Hc0 : client_ctxt w (VRef l0) = (VRef l0, w_heap w)).
  { unfold client_ctxt. simpl. rewrite Hl0. by rewrite bool_decide_eq_false_2. }
  erewrite client_wrapper_forwarding in Hrun; [|exact Hc0|].
  2:{ by apply (inject_trace_context_dict P _ l0 d0 fields). }
  simpl in Hrun. injection Hrun as <- <-. simpl. eexists _, _.
  split; [done|]. split; [|split; [|split]].
  - rewrite lookup_app_r by lia. replace (_ - _)%nat with 1%nat by lia. done.
  - intros k Hk. by rewrite lookup_insert_ne.
  - by rewrite lookup_insert_eq.
  - by apply list_lookup_middle.
Qed.

(** X7. A truthy context that is neither a mapping nor an object with
    [to_dict] (a non-zero integer, [True], a non-empty string) makes the
    client wrapper raise the error of [dict(ctxt)], a TypeError or a
    ValueError, without calling the wrapped operation. *)
Theorem client_unconvertible_context_raises op mn self ctxt method kwargs (w : world) fields :
  (∀ l, ctxt ≠ VRef l) → truthy (w_heap w) ctxt = true →
  p_inject P (injection_context w) = Ok fields →
  ∃ e w',
    _wrap_client_method P (call_client op) mn self ctxt method kwargs w = (Raise e, w') ∧
    dict_items (w_heap w) ctxt = Raise e ∧
    (isinstance e TypeError || isinstance e ValueError = true) ∧
    w_calls w' = w_calls w.
Proof.
  intros Hatom Ht Hf. rewrite client_wrapper_unfold. unfold client_ctxt. rewrite Ht.
  simpl. rewrite inject_trace_context_unfold. simpl. unfold injection_context in Hf.
  simpl in Hf. rewrite Hf. simpl.
  destruct ctxt as [|b|z|s|l]; simpl in *; try done.
  - subst b. unfold py_dict. munfold. simpl. eauto 10.
  - rewrite Ht. unfold py_dict. munfold. simpl. eauto 10.
  - rewrite Ht. unfold py_dict. munfold. simpl.
    destruct (String.eqb s EmptyString); [done|]. simpl. eauto 10.
  - by destruct (Hatom l).
Qed.

(** X8. An exception raised by the context's [to_dict] leaves the client
    wrapper as it is: the wrapped operation is not called, and the span
    is ended without the wrapper recording anything on it. *)
Theorem client_to_dict_failure_propagates
    op mn self method kwargs (w : world) l0 o e fields :
  w_heap w !! l0 = Some (HObj o) → ob_truth o = true →
  ob_to_dict o = Some (ToDictRaise e) →
  p_inject P (injection_context w) = Ok fields →
  _wrap_client_method P (call_client op) mn self (VRef l0) method kwargs w =
  (Raise e,
   World (w_heap w ++ [HDict fields]) (w_active w) (w_next_id w + 2)%N
     (w_spans w ++ client_span_ops mn self method ++ [OpEnd]) (w_calls w)).
Proof.
  intros Hl Ht Hd Hf. rewrite client_wrapper_unfold. unfold client_ctxt. simpl.
  rewrite Hl, Ht. simpl. rewrite inject_trace_context_unfold. simpl.
  unfold injection_context in Hf. simpl in Hf. rewrite Hf. simpl.
  assert (Hl1 : (w_heap w ++ [HDict fields]) !! l0 = Some (HObj o))
    by (by apply lookup_app_l_Some).
  rewrite Hl1, Hd. rewrite bool_decide_eq_true_2 by eauto.
  unfold call_to_dict. munfold. simpl. rewrite Hl1, Hd. simpl.
  unfold leave_span. simpl. by rewrite <- app_assoc.
Qed.

End ClientMore.

Lemma client_result_returned_unchanged_witness :
  let run := _wrap_client_method ids_propagator (call_client op_ok) "cast" no_target
               (VRef 0) (VStr "notify") ∅ world_user_dict in
  run.1 = Ok (VStr "OK") ∧
  w_spans run.2 = client_span_ops "cast" no_target (VStr "notify") ++ [OpEnd].
Proof.
  intros run.
  apply (client_result_returned_unchanged ids_propagator op_ok "cast" no_target
           (VRef 0) (VStr "notify") ∅ world_user_dict run.1 run.2 (VRef 2) (VStr "OK"));
    [apply surjective_pairing | reflexivity | reflexivity].
Defined.

Lemma client_result_comes_from_transport_witness :
  ∃ l, w_calls (_wrap_client_method ids_propagator (call_client op_ok) "call" no_target
                  (VRef 0) (VStr "get_status") ∅ world_user_dict).2
         = [CallClient no_target (VRef l) (VStr "get_status") ∅] ∧
       op_ok (w_heap (_wrap_client_method ids_propagator (call_client op_ok) "call"
                        no_target (VRef 0) (VStr "get_status") ∅ world_user_dict).2)
         no_target (VRef l) (VStr "get_status") ∅ = Ok (VStr "OK").
Proof.
  apply (client_result_comes_from_transport ids_propagator op_ok "call" no_target
           (VRef 0) (VStr "get_status") ∅ world_user_dict).
  apply surjective_pairing.
Defined.

Lemma client_carrier_is_fresh_witness :
  let run := _wrap_client_method ids_propagator (call_client op_ok) "call" no_target
               (VRef 0) (VStr "get_status") ∅ world_caching in
  ∃ lc, holds_under (w_heap run.2) 1%nat TRACE_CONTEXT_KEY (VRef lc) ∧
        (length (w_heap world_caching) ≤ lc < length (w_heap run.2))%nat.
Proof.
  intros run.
  apply (client_carrier_is_fresh ids_propagator op_ok "call" no_target
           (VRef 0) (VStr "get_status") ∅ world_caching run.1 run.2 1%nat);
    [apply surjective_pairing | reflexivity].
Defined.

Lemma client_carrier_holds_span_context_witness :
  let run := _wrap_client_method ids_propagator (call_client op_ok) "call" no_target
               (VRef 0) (VStr "get_status") ∅ world_user_dict in
  ∃ lc fields,
    holds_under (w_heap run.2) 2%nat TRACE_CONTEXT_KEY (VRef lc) ∧
    w_heap run.2 !! lc = Some (HDict fields) ∧
    p_inject ids_propagator (injection_context world_user_dict) = Ok fields.
Proof.
  intros run.
  apply (client_carrier_holds_span_context ids_propagator op_ok "call" no_target
           (VRef 0) (VStr "get_status") ∅ world_user_dict run.1 run.2 2%nat);
    [reflexivity | apply surjective_pairing | reflexivity].
Defined.

Lemma client_keeps_other_entries_witness :
  let run := _wrap_client_method ids_propagator (call_client op_ok) "call" no_target
               (VRef 0) (VStr "get_status") ∅ world_stale_key in
  ∃ l d,
    w_calls run.2 = [CallClient no_target (VRef l) (VStr "get_status") ∅] ∧
    w_heap run.2 !! l = Some (HDict d) ∧
    (∀ k, k ≠ TRACE_CONTEXT_KEY →
          d !! k = ({[ "user" := VStr "alice"; "_trace_context" := VStr "stale" ]}
                      : gmap string value) !! k) ∧
    d !! TRACE_CONTEXT_KEY = Some (VRef 1) ∧
    w_heap run.2 !! 1%nat = Some (HDict {[ "trace_id" := VInt 1; "span_id" := VInt 2 ]}).
Proof.
  intros run.
  apply (client_keeps_other_entries ids_propagator op_ok "call" no_target
           (VStr "get_status") ∅ world_stale_key 0%nat
           {[ "user" := VStr "alice"; "_trace_context" := VStr "stale" ]}
           {[ "trace_id" := VInt 1; "span_id" := VInt 2 ]} run.1 run.2);
    [reflexivity | | reflexivity | apply surjective_pairing].
  intros H. apply (f_equal (fun m : gmap string value => m !! "user")) in H.
  vm_compute in H. discriminate.
Defined.

Lemma client_unconvertible_context_raises_witness :
  ∃ e w',
    _wrap_client_method ids_propagator (call_client op_ok) "call" no_target (VInt 5)
      (VStr "get_status") ∅ world0 = (Raise e, w') ∧
    dict_items (w_heap world0) (VInt 5) = Raise e ∧
    (isinstance e TypeError || isinstance e ValueError = true) ∧
    w_calls w' = w_calls world0.
Proof.
  apply (client_unconvertible_context_raises ids_propagator op_ok "call" no_target
           (VInt 5) (VStr "get_status") ∅ world0
           {[ "trace_id" := VInt 1; "span_id" := VInt 2 ]});
    [intros l; discriminate | reflexivity | reflexivity].
Defined.

(** ** Server wrapper *)

Section ServerMore.
Variable P : Propagator.


Lemma extract_parent_world cd w : (extract_parent P cd w).2 = w.
Proof.
  unfold extract_parent, py_contains, getitem, extract. munfold. simpl.
  repeat (case_match; simplify_eq/=); done.
Qed.

(** Every run of the server wrapper on a message with [ctxt] and
    [message]: either it raises before a span is started, or it runs the
    handler once inside one span. *)
Lemma server_wrapper_outcome op self incoming ctxt message w r w' :
  inc_ctxt incoming = Some ctxt → inc_message incoming = Some message →
  _wrap_server_process_incoming P (call_server op) self incoming w = (r, w') →
  w_heap w `prefix_of` w_heap w' ∧ w_active w' = w_active w ∧
  ((∃ e, r = Raise e ∧ w_calls w' = w_calls w ∧ w_spans w' = w_spans w)
   ∨ (∃ ctx method,
        w_calls w' = w_calls w ++ [CallServer self incoming] ∧
        r = op (w_heap w') self incoming ∧
        w_spans w' = w_spans w ++ server_span_ops ctx self method ++ handled r ++ [OpEnd])).
Proof.
  intros Hc Hm. rewrite (server_wrapper_unfold P _ _ _ _ _ _ Hc Hm).
  destruct (normalize_incoming_ctxt ctxt w) as [r1 w1] eqn:Hn.
  destruct (normalize_incoming_ctxt_effects _ _ _ _ Hn) as [(Ha & Hi & Hs & Hcs) Hpre].
  destruct r1 as [cd|e]; [|intros [= <- <-]; split; [done|]; split; [done|]; left; eauto].
  pose proof (extract_parent_world cd w1) as Hw2.
  destruct (extract_parent P cd w1) as [r2 w2]. simpl in Hw2. subst w2.
  destruct r2 as [ctx|e]; [|intros [= <- <-]; split; [done|]; split; [done|]; left; eauto].
  pose proof (py_get_world message "method" (VStr "unknown") w1) as Hw3.
  destruct (py_get message "method" (VStr "unknown") w1) as [r3 w3]. simpl in Hw3. subst w3.
  destruct r3 as [method|e]; [|intros [= <- <-]; split; [done|]; split; [done|]; left; eauto].
  unfold call_server. intros [= <- <-]. simpl.
  split; [done|]. split; [done|]. right. exists ctx, method.
  rewrite Hs, Hcs. by rewrite <- app_assoc.
Qed.

(** X9. If the handler the server wrapper calls raises an error [E] (an
    instance of [Exception]), the wrapper raises that same [E], having
    recorded [E] on the server span and set its status to ERROR before the
    span ends. *)
Theorem server_error_recorded_then_reraised op self incoming ctxt message w r w' E :
  inc_ctxt incoming = Some ctxt → inc_message incoming = Some message →
  isinstance E Exception_ = true →
  _wrap_server_process_incoming P (call_server op) self incoming w = (r, w') →
  w_calls w' = w_calls w ++ [CallServer self incoming] →
  op (w_heap w') self incoming = Raise E →
  r = Raise E ∧
  ∃ ctx method,
    w_spans w' = w_spans w ++ server_span_ops ctx self method
                   ++ [OpRecordException E; OpSetStatus ERROR; OpEnd].
Proof.
  intros Hc Hm HE Hrun Hcall Hop.
  destruct (server_wrapper_outcome _ _ _ _ _ _ _ _ Hc Hm Hrun)
    as (_ & _ & [(e & _ & Hcs & _)|(ctx & method & _ & Hr & Hs)]).
  - rewrite Hcs in Hcall. by apply calls_not_self in Hcall.
  - rewrite Hop in Hr. subst r. split; [done|]. exists ctx, method.
    rewrite Hs. simpl. by rewrite HE.
Qed.

(** X10. The server wrapper never answers for the handler and never
    changes what the handler sees: it returns [v] only if it called the
    handler, once, with the incoming message as received, and that call
    returned [v]; and no object the store held before the dispatch is
    changed, whatever the outcome. *)
Theorem server_result_comes_from_handler op self incoming ctxt message w r w' :
  inc_ctxt incoming = Some ctxt → inc_message incoming = Some message →
  _wrap_server_process_incoming P (call_server op) self incoming w = (r, w') →
  w_heap w `prefix_of` w_heap w' ∧
  (w_calls w' = w_calls w ∨ w_calls w' = w_calls w ++ [CallServer self incoming]) ∧
  ∀ v, r = Ok v →
       w_calls w' = w_calls w ++ [CallServer self incoming] ∧
       op (w_heap w') self incoming = Ok v.
Proof.
  intros Hc Hm Hrun.
  destruct (server_wrapper_outcome _ _ _ _ _ _ _ _ Hc Hm Hrun)
    as (Hpre & _ & [(e & He & Hcs & _)|(ctx & method & Hcs & Hr & _)]).
  - split; [done|]. split; [by left|]. intros v ->. done.
  - split; [done|]. split; [by right|]. intros v ->. done.
Qed.


End ServerMore.

Section ServerSpans.
Variable P : Propagator.

Lemma extract_parent_run cd w ctx :
  (extract_parent P cd w).1 = Ok ctx → extract_parent P cd w = (Ok ctx, w).
Proof.
  intros H. rewrite (surjective_pairing (extract_parent _ _ _)), H.
  by rewrite extract_parent_world.
Qed.

Lemma extract_parent_falsy cd w :
  truthy (w_heap w) cd = false → extract_parent P cd w = (Ok None, w).
Proof. intros H. unfold extract_parent. munfold. simpl. by rewrite H. Qed.

Lemma py_get_dict (w : world) l d key dflt :
  w_heap w !! l = Some (HDict d) →
  py_get (VRef l) key dflt w = (Ok (default dflt (d !! key)), w).
Proof. intros H. unfold py_get. munfold. simpl. by rewrite H. Qed.

(** The server wrapper's run once context, parent and method are known. *)
Lemma server_wrapper_started op self incoming ctxt message (w w1 : world) cd ctx method :
  inc_ctxt incoming = Some ctxt → inc_message incoming = Some message →
  normalize_incoming_ctxt ctxt w = (Ok cd, w1) →
  (extract_parent P cd w1).1 = Ok ctx →
  (py_get message "method" (VStr "unknown") w1).1 = Ok method →
  let r := op (w_heap w1) self incoming in
  _wrap_server_process_incoming P (call_server op) self incoming w =
  (r, World (w_heap w1) (w_active w) (w_next_id w + 2)%N
        (w_spans w ++ server_span_ops ctx self method ++ handled r ++ [OpEnd])
        (w_calls w ++ [CallServer self incoming])).
Proof.
  intros Hc Hm Hn He Hg. rewrite (server_wrapper_unfold P _ _ _ _ _ _ Hc Hm).
  rewrite Hn, (extract_parent_run _ _ _ He), (py_get_run _ _ _ _ _ Hg).
  destruct (normalize_incoming_ctxt_effects _ _ _ _ Hn) as [(Ha & Hi & Hs & Hcs) _].
  unfold call_server, leave_span, in_span, log_call. simpl.
  rewrite Ha, Hi, Hs, Hcs. by rewrite <- app_assoc.
Qed.

(** X12. The server span is named after the ["method"] entry of the
    message body, a string, and carries it as rpc.method; a body without
    that entry gives the name [oslo_messaging.rpc.server.unknown] and the
    attribute ["unknown"]. *)
Theorem server_span_named_after_method
    op self incoming ctxt lm dm (w w1 : world) cd ctx :
  inc_ctxt incoming = Some ctxt → inc_message incoming = Some (VRef lm) →
  w_heap w !! lm = Some (HDict dm) →
  (∀ v, dm !! "method" = Some v → ∃ s, v = VStr s) →
  normalize_incoming_ctxt ctxt w = (Ok cd, w1) →
  (extract_parent P cd w1).1 = Ok ctx →
  let method := default (VStr "unknown") (dm !! "method") in
  let r := op (w_heap w1) self incoming in
  _wrap_server_process_incoming P (call_server op) self incoming w =
  (r, World (w_heap w1) (w_active w) (w_next_id w + 2)%N
        (w_spans w
           ++ [OpStart ("oslo_messaging.rpc.server." +:+ py_str method) SERVER ctx;
               OpSetAttribute "rpc.method" method;
               OpSetAttribute "rpc.system" (VStr "oslo_messaging");
               OpSetAttribute "rpc.service" (getattr_target self)]
           ++ handled r ++ [OpEnd])
        (w_calls w ++ [CallServer self incoming])).
Proof.
  intros Hc Hm Hl _ Hn He method r.
  destruct (normalize_incoming_ctxt_effects _ _ _ _ Hn) as [_ Hpre].
  apply (server_wrapper_started op self incoming ctxt (VRef lm) w w1 cd ctx method);
    try done.
  by rewrite (py_get_dict w1 lm dm) by (by eapply prefix_lookup_Some).
Qed.

(** X13. A context that normalises to something falsy (the context is
    [None], an empty mapping, or [to_dict] returned [None] or an empty
    dict) is not searched for a carrier: the span is started with no
    parent and the handler runs. *)
Theorem server_falsy_context_no_parent
    op self incoming ctxt message (w w1 : world) cd method :
  inc_ctxt incoming = Some ctxt → inc_message incoming = Some message →
  normalize_incoming_ctxt ctxt w = (Ok cd, w1) →
  truthy (w_heap w1) cd = false →
  (py_get message "method" (VStr "unknown") w1).1 = Ok method →
  let r := op (w_heap w1) self incoming in
  _wrap_server_process_incoming P (call_server op) self incoming w =
  (r, World (w_heap w1) (w_active w) (w_next_id w + 2)%N
        (w_spans w ++ server_span_ops None self method ++ handled r ++ [OpEnd])
        (w_calls w ++ [CallServer self incoming])).
Proof.
  intros Hc Hm Hn Ht Hg.
  apply (server_wrapper_started op self incoming ctxt message w w1 cd None method);
    try done.
  by rewrite extract_parent_falsy.
Qed.

(** The run of the server wrapper on a dict context that holds a carrier. *)
Lemma server_parent_is_extracted_context_run
    op self incoming message (w : world) l d c ctx method :
  inc_ctxt incoming = Some (VRef l) → inc_message incoming = Some message →
  w_heap w !! l = Some (HDict d) → d !! TRACE_CONTEXT_KEY = Some c →
  p_extract P (w_heap w ++ [HDict d]) c = Ok ctx →
  (py_get message "method" (VStr "unknown") (with_heap w (w_heap w ++ [HDict d]))).1
    = Ok method →
  let r := op (w_heap w ++ [HDict d]) self incoming in
  _wrap_server_process_incoming P (call_server op) self incoming w =
  (r, World (w_heap w ++ [HDict d]) (w_active w) (w_next_id w + 2)%N
        (w_spans w ++ server_span_ops (Some ctx) self method ++ handled r ++ [OpEnd])
        (w_calls w ++ [CallServer self incoming])).
Proof.
  intros Hc Hm Hl Hd He Hg.
  apply (server_wrapper_started op self incoming (VRef l) message w
           (with_heap w (w_heap w ++ [HDict d])) (VRef (length (w_heap w)))
           (Some ctx) method); try done.
  - by apply normalize_incoming_ctxt_dict.
  - erewrite extract_parent_present; [|by apply list_lookup_middle|done].
    simpl. by rewrite He.
Qed.

(** X14. When the incoming context is a dict with an entry under the
    reserved key, the server span's parent is what [extract] returns for
    the stored value; the wrapper copies the context and leaves the
    received dict as it was. *)
Theorem server_parent_is_extracted_context
    op self incoming message (w : world) l d c ctx method :
  inc_ctxt incoming = Some (VRef l) → inc_message incoming = Some message →
  w_heap w !! l = Some (HDict d) → d !! TRACE_CONTEXT_KEY = Some c →
  p_extract P (w_heap w ++ [HDict d]) c = Ok ctx →
  (py_get message "method" (VStr "unknown") (with_heap w (w_heap w ++ [HDict d]))).1
    = Ok method →
  let r := op (w_heap w ++ [HDict d]) self incoming in
  _wrap_server_process_incoming P (call_server op) self incoming w =
  (r, World (w_heap w ++ [HDict d]) (w_active w) (w_next_id w + 2)%N
        (w_spans w ++ server_span_ops (Some ctx) self method ++ handled r ++ [OpEnd])
        (w_calls w ++ [CallServer self incoming])).
Proof. apply server_parent_is_extracted_context_run. Qed.

(** X15. A message body that has no [get] (it is [None], a number, a
    string) makes the dispatch raise AttributeError after the context has
    been read: no span is started and the handler is not called. *)
Theorem server_body_without_get_raises
    op self incoming ctxt message (w w1 : world) cd ctx :
  inc_ctxt incoming = Some ctxt → inc_message incoming = Some message →
  (∀ l, message ≠ VRef l) →
  normalize_incoming_ctxt ctxt w = (Ok cd, w1) →
  (extract_parent P cd w1).1 = Ok ctx →
  _wrap_server_process_incoming P (call_server op) self incoming w =
    (Raise (Exn AttributeError "get"), w1)
  ∧ w_spans w1 = w_spans w ∧ w_calls w1 = w_calls w.
Proof.
  intros Hc Hm Hatom Hn He.
  destruct (normalize_incoming_ctxt_effects _ _ _ _ Hn) as [(_ & _ & Hs & Hcs) _].
  split; [|done].
  rewrite (server_wrapper_unfold P _ _ _ _ _ _ Hc Hm).
  rewrite Hn, (extract_parent_run _ _ _ He).
  unfold py_get. munfold. simpl.
  destruct message as [| | | |l]; try done. by destruct (Hatom l).
Qed.

(** X16. The two wrappers compose: when the server receives the very
    dict the client wrapper forwarded, and the propagator loses nothing,
    the parent of the server span is the context of the client span (not
    the context the caller was in). *)
Theorem client_span_is_server_parent
    op mn cself ctxt cmethod kwargs (w w' : world) r l d
    handler self incoming lm dm (ws : world) :
  lossless P →
  store_closed (w_heap w) = true →
  _wrap_client_method P (call_client op) mn cself ctxt cmethod kwargs w = (r, w') →
  w_calls w' = w_calls w ++ [CallClient cself (VRef l) cmethod kwargs] →
  w_heap w' !! l = Some (HDict d) →
  w_heap w' `prefix_of` w_heap ws →
  inc_ctxt incoming = Some (VRef l) → inc_message incoming = Some (VRef lm) →
  w_heap ws !! lm = Some (HDict dm) →
  ∃ rs ws',
    _wrap_server_process_incoming P (call_server handler) self incoming ws = (rs, ws') ∧
    w_spans ws' = w_spans ws
                    ++ server_span_ops (Some (injection_context w)) self
                         (default (VStr "unknown") (dm !! "method"))
                    ++ handled rs ++ [OpEnd] ∧
    w_calls ws' = w_calls ws ++ [CallServer self incoming].
Proof.
  intros Hloss Hclosed Hrun Hcall Hl Hpre Hc Hm Hlm.
  destruct (client_forwarded_carrier P _ _ _ _ _ _ _ _ _ _ Hclosed Hrun Hcall)
    as (lc & fields & Hh & Hlc & Hf).
  pose proof (holds_under_dict _ _ _ _ _ Hl Hh) as Hd.
  assert (Hl' : w_heap ws !! l = Some (HDict d)) by (by eapply prefix_lookup_Some).
  assert (Hlc' : (w_heap ws ++ [HDict d]) !! lc = Some (HDict fields)).
  { apply lookup_app_l_Some. by eapply prefix_lookup_Some. }
  pose proof (Hloss _ _ _ _ Hf Hlc') as Hext.
  eexists _, _. split.
  - apply (server_parent_is_extracted_context_run handler self incoming (VRef lm) ws
             l d (VRef lc) (injection_context w)
             (default (VStr "unknown") (dm !! "method"))); try done.
    by rewrite (py_get_dict _ lm dm) by (by apply lookup_app_l_Some).
  - done.
Qed.

End ServerSpans.

Lemma server_error_recorded_then_reraised_witness :
  let run := _wrap_server_process_incoming ids_propagator
               (call_server (handler_raising timeout_error)) no_target plain_message
               world_server in
  run.1 = Raise timeout_error ∧
  ∃ ctx method,
    w_spans run.2 = w_spans world_server ++ server_span_ops ctx no_target method
                      ++ [OpRecordException timeout_error; OpSetStatus ERROR; OpEnd].
Proof.
  intros run.
  apply (server_error_recorded_then_reraised ids_propagator (handler_raising timeout_error)
           no_target plain_message (VRef 0) (VRef 1) world_server run.1 run.2 timeout_error);
    [reflexivity | reflexivity | reflexivity | apply surjective_pairing
    | reflexivity | reflexivity].
Defined.

Lemma server_result_comes_from_handler_witness :
  let run := _wrap_server_process_incoming ids_propagator (call_server handler_ok)
               no_target plain_message world_server in
  w_heap world_server `prefix_of` w_heap run.2 ∧
  (w_calls run.2 = w_calls world_server ∨
   w_calls run.2 = w_calls world_server ++ [CallServer no_target plain_message]) ∧
  ∀ v, run.1 = Ok v →
       w_calls run.2 = w_calls world_server ++ [CallServer no_target plain_message] ∧
       handler_ok (w_heap run.2) no_target plain_message = Ok v.
Proof.
  intros run.
  apply (server_result_comes_from_handler ids_propagator handler_ok no_target
           plain_message (VRef 0) (VRef 1) world_server run.1 run.2);
    [reflexivity | reflexivity | apply surjective_pairing].
Defined.

Lemma server_span_named_after_method_witness :
  _wrap_server_process_incoming ids_propagator (call_server handler_ok) no_target
    plain_message world_no_method =
  (Ok (VStr "done"),
   World (w_heap world_no_method ++ [HDict {[ "user" := VStr "alice" ]}]) None 3
     [OpStart "oslo_messaging.rpc.server.unknown" SERVER None;
      OpSetAttribute "rpc.method" (VStr "unknown");
      OpSetAttribute "rpc.system" (VStr "oslo_messaging");
      OpSetAttribute "rpc.service" VNone;
      OpEnd]
     [CallServer no_target plain_message]).
Proof.
  etrans;
    [apply (server_span_named_after_method ids_propagator handler_ok no_target
              plain_message (VRef 0) 1%nat {[ "args" := VInt 1 ]} world_no_method
              (with_heap world_no_method
                 (w_heap world_no_method ++ [HDict {[ "user" := VStr "alice" ]}]))
              (VRef 2) None);
       [reflexivity | reflexivity | reflexivity
       | intros v Hv; vm_compute in Hv; discriminate
       | reflexivity | reflexivity]
    |by vm_compute].
Defined.

Lemma server_falsy_context_no_parent_witness :
  _wrap_server_process_incoming ids_propagator (call_server handler_ok) no_target
    none_ctxt_message world_server =
  (Ok (VStr "done"),
   World (w_heap world_server) None 3
     (server_span_ops None no_target (VStr "get_status") ++ [OpEnd])
     [CallServer no_target none_ctxt_message]).
Proof.
  apply (server_falsy_context_no_parent ids_propagator handler_ok no_target
           none_ctxt_message VNone (VRef 1) world_server world_server VNone
           (VStr "get_status"));
    reflexivity.
Defined.

Lemma server_parent_is_extracted_context_witness :
  _wrap_server_process_incoming ids_propagator (call_server handler_ok) no_target
    carrier_message world_with_carrier =
  (Ok (VStr "done"),
   World (w_heap world_with_carrier ++ [HDict {[ "_trace_context" := VRef 0 ]}]) None 3
     (server_span_ops (Some (Some {| trace_id := 7; span_id := 8 |})) no_target
        (VStr "get_status") ++ [OpEnd])
     [CallServer no_target carrier_message]).
Proof.
  apply (server_parent_is_extracted_context ids_propagator handler_ok no_target
           carrier_message (VRef 2) world_with_carrier 1%nat
           {[ "_trace_context" := VRef 0 ]} (VRef 0)
           (Some {| trace_id := 7; span_id := 8 |}) (VStr "get_status"));
    reflexivity.
Defined.

Lemma server_body_without_get_raises_witness :
  _wrap_server_process_incoming ids_propagator (call_server handler_ok) no_target
    none_body_message world_server =
    (Raise (Exn AttributeError "get"),
     with_heap world_server (w_heap world_server ++ [HDict {[ "user" := VStr "alice" ]}]))
  ∧ w_spans (with_heap world_server
               (w_heap world_server ++ [HDict {[ "user" := VStr "alice" ]}]))
    = w_spans world_server
  ∧ w_calls (with_heap world_server
               (w_heap world_server ++ [HDict {[ "user" := VStr "alice" ]}]))
    = w_calls world_server.
Proof.
  apply (server_body_without_get_raises ids_propagator handler_ok no_target
           none_body_message (VRef 0) VNone world_server
           (with_heap world_server
              (w_heap world_server ++ [HDict {[ "user" := VStr "alice" ]}]))
           (VRef 2) None);
    [reflexivity | reflexivity | intros l; discriminate | reflexivity | reflexivity].
Defined.

(** ** Installation *)

(** X17. [_instrument_client] replaces exactly [cast] and [call], each by
    a wrapper that records the replaced callable as [__wrapped__] and is
    named after the attribute; a method the class does not have stays
    absent, and every other attribute ([call_async], say) is left alone. *)
Theorem instrument_client_wraps_cast_and_call m (cls : gmap string attr) :
  rpc_client m = Some cls →
  ∃ cls' : gmap string attr,
    rpc_client (_instrument_client m) = Some cls' ∧
    rpc_server (_instrument_client m) = rpc_server m ∧
    (∀ name, name = "cast" ∨ name = "call" →
             cls' !! name = (λ a, ClientWrapper a name) <$> cls !! name) ∧
    (∀ name, name ≠ "cast" → name ≠ "call" → name ≠ "_inject_trace_context" →
             cls' !! name = cls !! name).
Proof.
  destruct m as [c srv]. simpl. intros ->.
  destruct (rpc_client (_instrument_client {| rpc_client := Some cls; rpc_server := srv |}))
    as [cls'|] eqn:Hcls'; [|done].
  exists cls'. split; [done|]. split; [done|]. split.
  - intros name Hname.
    pose proof (instrument_client_lookup cls srv name) as H. rewrite Hcls' in H.
    simpl in H. rewrite H.
    rewrite decide_False by (by destruct Hname as [-> | ->]).
    by rewrite decide_True.
  - intros name H1 H2 H3.
    pose proof (instrument_client_lookup cls srv name) as H. rewrite Hcls' in H.
    simpl in H. rewrite H. rewrite decide_False by done.
    by rewrite decide_False by (by intros [?|?]).
Qed.

(** X18. [_instrument_client] adds the instrumentor's
    [_inject_trace_context] only when the class has no attribute of that
    name; one that is already there is kept. *)
Theorem instrument_client_keeps_existing_inject m (cls : gmap string attr) :
  rpc_client m = Some cls →
  rpc_client (_instrument_client m) ≫= (.!! "_inject_trace_context")
  = Some (default InjectMethod (cls !! "_inject_trace_context")).
Proof.
  destruct m as [c srv]. simpl. intros ->.
  rewrite instrument_client_lookup. by rewrite decide_True.
Qed.

(** X19. [_instrument] fails exactly when the server module can be
    imported and [RPCServer] has no [_process_incoming]: the attribute is
    read without a [hasattr] test and only ImportError is caught, so the
    AttributeError escapes.  A module that cannot be imported is skipped. *)
Theorem instrument_fails_only_without_process_incoming m :
  (∃ e, _instrument m = Raise e) ↔
  (∃ cls : gmap string attr,
     rpc_server m = Some cls ∧ cls !! "_process_incoming" = None).
Proof.
  unfold _instrument, _instrument_server.
  assert (Hsrv : rpc_server (_instrument_client m) = rpc_server m).
  { unfold _instrument_client. by destruct (rpc_client m). }
  rewrite Hsrv. destruct (rpc_server m) as [cls|].
  - destruct (cls !! "_process_incoming") eqn:Hp.
    + split; [by intros [e ?]|]. intros (cls0 & [= <-] & H). congruence.
    + split; [eauto|]. eauto.
  - split; [by intros [e ?]|]. by intros (cls0 & ? & _).
Qed.

Section InstalledBehaviour.
Variable P : Propagator.
Variable native_client : string -> client_op.
Variable native_inject : string -> value -> M value.

(** X20. After [_instrument_client], calling [cast] (or [call]) on the
    instrumented class runs the callable it replaced inside a CLIENT span
    named for that call kind: [oslo_messaging.rpc.cast] for a cast,
    [oslo_messaging.rpc.call] for a call.  The context is prepared by what
    [self._inject_trace_context] resolves to on that class: the
    instrumentor's method when the class had no attribute of that name,
    and the class's own method when it had one. *)
Theorem instrumented_method_traces_call_kind m (cls : gmap string attr) name n :
  rpc_client m = Some cls →
  name = "cast" ∨ name = "call" →
  cls !! name = Some (Native n) →
  ∃ (cls' : gmap string attr) installed,
    rpc_client (_instrument_client m) = Some cls' ∧
    cls' !! name = Some installed ∧
    __wrapped__ installed = Some (Native n) ∧
    (cls !! "_inject_trace_context" = None →
     ∀ self ctxt method kwargs w,
       client_behaviour P native_client native_inject cls' installed
         self ctxt method kwargs w =
       _wrap_client_method P (call_client (native_client n)) name
         self ctxt method kwargs w) ∧
    (∀ own, cls !! "_inject_trace_context" = Some (Native own) →
     ∀ self ctxt method kwargs w,
       client_behaviour P native_client native_inject cls' installed
         self ctxt method kwargs w =
       start_as_current_span ("oslo_messaging.rpc." +:+ name) None CLIENT (
         set_attribute "rpc.method" method;;
         set_attribute "rpc.system" (VStr "oslo_messaging");;
         set_attribute "rpc.service" (getattr_target self);;
         h ← get_heap;
         ctxt ← (if negb (truthy h ctxt) then alloc (HDict ∅) else mret ctxt);
         ctxt ← native_inject own ctxt;
         try_except (call_client (native_client n) self ctxt method kwargs)
           [Exception_] on_exception) w).
Proof.
  destruct m as [c srv]. simpl. intros -> Hname Hn.
  pose proof (instrument_client_lookup cls srv) as Hlook.
  destruct (rpc_client (_instrument_client {| rpc_client := Some cls; rpc_server := srv |}))
    as [cls'|] eqn:Hcls'; [|done].
  simpl in Hlook.
  assert (Hinst : cls' !! name = Some (ClientWrapper (Native n) name)).
  { rewrite Hlook. rewrite decide_False by (by destruct Hname as [-> | ->]).
    rewrite decide_True by done. by rewrite Hn. }
  assert (Hinj : cls' !! "_inject_trace_context"
                 = Some (default InjectMethod (cls !! "_inject_trace_context"))).
  { rewrite Hlook. by rewrite decide_True. }
  exists cls', (ClientWrapper (Native n) name).
  split; [done|]. split; [done|]. split; [done|]. split.
  - intros Hnone self ctxt method kwargs w. rewrite Hnone in Hinj. simpl in Hinj.
    by rewrite (client_wrapper_with_inject P native_client native_inject cls' _ _ Hinj).
  - intros own Hown self ctxt method kwargs w. rewrite Hown in Hinj. simpl in Hinj.
    simpl. unfold inject_attribute. by rewrite Hinj.
Qed.

End InstalledBehaviour.

(** X21. Instrumenting is not idempotent for the methods: a second
    [_instrument_client] wraps the wrappers again, while
    [_inject_trace_context] is installed once. *)
Theorem instrument_client_twice_wraps_twice m (cls : gmap string attr) name a :
  rpc_client m = Some cls →
  name = "cast" ∨ name = "call" →
  cls !! name = Some a →
  rpc_client (_instrument_client (_instrument_client m)) ≫= (.!! name)
    = Some (ClientWrapper (ClientWrapper a name) name)
  ∧ rpc_client (_instrument_client (_instrument_client m)) ≫= (.!! "_inject_trace_context")
    = rpc_client (_instrument_client m) ≫= (.!! "_inject_trace_context").
Proof.
  destruct m as [c srv]. intros Hm Hname Ha. simpl in Hm. subst c.
  pose proof (instrument_client_lookup cls srv name) as H1.
  pose proof (instrument_client_lookup cls srv "_inject_trace_context") as H2.
  rewrite decide_True in H2 by done.
  rewrite decide_False in H1 by (by destruct Hname as [-> | ->]).
  rewrite decide_True in H1 by done. rewrite Ha in H1.
  remember (_instrument_client {| rpc_client := Some cls; rpc_server := srv |})
    as m1 eqn:Hm1.
  destruct m1 as [[cls1|] srv1]; simpl in H1, H2; [|done].
  split.
  - rewrite instrument_client_lookup.
    rewrite decide_False by (by destruct Hname as [-> | ->]).
    rewrite decide_True by done. by rewrite H1.
  - rewrite instrument_client_lookup. rewrite decide_True by done. by rewrite H2.
Qed.

Section UninstallMore.
Variable unwrap : gmap string attr -> string -> gmap string attr.
Hypothesis unwrap_keeps : keeps_unwrapped unwrap.

(** X22. Uninstrumenting classes that were never instrumented changes
    nothing, provided [unwrap] leaves alone what records no [__wrapped__]:
    no attribute is replaced and, the class having no
    [_inject_trace_context], nothing is deleted. *)
Theorem uninstrument_clean_is_noop m :
  (∀ cls : gmap string attr, rpc_client m = Some cls →
     unwrapped_class cls ∧ cls !! "_inject_trace_context" = None) →
  (∀ cls : gmap string attr, rpc_server m = Some cls → unwrapped_class cls) →
  _uninstrument unwrap m = m.
Proof.
  intros Hcl Hsrv.
  assert (Hstep : ∀ (cls : gmap string attr) name, unwrapped_class cls →
            (if bool_decide (is_Some (cls !! name)) then unwrap cls name else cls) = cls).
  { intros cls name Hu. destruct (cls !! name) as [a|] eqn:Ha.
    - rewrite bool_decide_eq_true_2 by eauto. by eapply unwrap_keeps, Hu.
    - by rewrite bool_decide_eq_false_2 by (by intros [? ?]). }
  unfold _uninstrument, _uninstrument_client, _uninstrument_server.
  destruct m as [[cls|] [srv|]]; simpl in *.
  - destruct (Hcl _ eq_refl) as [Hu Hi].
    rewrite (Hstep cls "cast") by done. rewrite (Hstep cls "call") by done.
    rewrite Hi. rewrite (bool_decide_eq_false_2 (is_Some None)) by (by intros [? ?]).
    simpl. by rewrite (Hstep srv "_process_incoming") by (by apply Hsrv).
  - destruct (Hcl _ eq_refl) as [Hu Hi].
    rewrite (Hstep cls "cast") by done. rewrite (Hstep cls "call") by done.
    rewrite Hi. by rewrite (bool_decide_eq_false_2 (is_Some None)) by (by intros [? ?]).
  - by rewrite (Hstep srv "_process_incoming") by (by apply Hsrv).
  - done.
Qed.

End UninstallMore.

Lemma instrument_client_wraps_cast_and_call_witness :
  ∃ cls' : gmap string attr,
    rpc_client (_instrument_client modules_with_async) = Some cls' ∧
    rpc_server (_instrument_client modules_with_async) = rpc_server modules_with_async ∧
    (∀ name, name = "cast" ∨ name = "call" →
       cls' !! name =
       (λ a, ClientWrapper a name) <$>
         ({[ "cast" := Native "cast"; "call" := Native "call";
             "call_async" := Native "call_async" ]} : gmap string attr) !! name) ∧
    (∀ name, name ≠ "cast" → name ≠ "call" → name ≠ "_inject_trace_context" →
       cls' !! name =
       ({[ "cast" := Native "cast"; "call" := Native "call";
           "call_async" := Native "call_async" ]} : gmap string attr) !! name).
Proof.
  apply (instrument_client_wraps_cast_and_call modules_with_async). reflexivity.
Defined.

Lemma instrument_fails_only_without_process_incoming_witness :
  ∃ e, _instrument modules_without_process_incoming = Raise e.
Proof.
  apply (proj2 (instrument_fails_only_without_process_incoming
                  modules_without_process_incoming)).
  exists ∅. split; reflexivity.
Defined.

Lemma instrument_client_keeps_existing_inject_witness :
  rpc_client (_instrument_client modules_with_own_inject) ≫= (.!! "_inject_trace_context")
  = Some (default InjectMethod
            (({[ "call" := Native "call";
                 "_inject_trace_context" := Native "_inject_trace_context" ]}
                : gmap string attr) !! "_inject_trace_context")).
Proof.
  apply (instrument_client_keeps_existing_inject modules_with_own_inject). reflexivity.
Defined.

Lemma instrumented_method_traces_call_kind_witness :
  (∃ (cls' : gmap string attr) installed,
     rpc_client (_instrument_client pristine_modules) = Some cls' ∧
     cls' !! "cast" = Some installed ∧
     ∀ self ctxt method kwargs w,
       client_behaviour ids_propagator (fun _ => op_ok) (fun _ => mret) cls' installed
         self ctxt method kwargs w =
       _wrap_client_method ids_propagator (call_client op_ok) "cast"
         self ctxt method kwargs w)
  ∧
  (∃ (cls' : gmap string attr) installed,
     rpc_client (_instrument_client modules_with_own_inject) = Some cls' ∧
     cls' !! "call" = Some installed ∧
     (client_behaviour ids_propagator (fun _ => op_ok) (fun _ => mret) cls' installed
        no_target (VRef 0) (VStr "get_status") ∅ world_user_dict).1 = Ok (VStr "OK") ∧
     w_calls (client_behaviour ids_propagator (fun _ => op_ok) (fun _ => mret) cls'
                installed no_target (VRef 0) (VStr "get_status") ∅ world_user_dict).2
       = [CallClient no_target (VRef 0) (VStr "get_status") ∅]).
Proof.
  split.
  - destruct (instrumented_method_traces_call_kind ids_propagator (fun _ => op_ok)
                (fun _ => mret) pristine_modules
                {[ "cast" := Native "cast"; "call" := Native "call" ]} "cast" "cast"
                eq_refl (or_introl eq_refl) eq_refl)
      as (cls' & installed & Hcls & Hinst & _ & Hmine & _).
    exists cls', installed. split; [exact Hcls|]. split; [exact Hinst|].
    apply Hmine. reflexivity.
  - destruct (instrumented_method_traces_call_kind ids_propagator (fun _ => op_ok)
                (fun _ => mret) modules_with_own_inject
                {[ "call" := Native "call";
                   "_inject_trace_context" := Native "_inject_trace_context" ]}
                "call" "call" eq_refl (or_intror eq_refl) eq_refl)
      as (cls' & installed & Hcls & Hinst & _ & _ & Hown).
    exists cls', installed. split; [exact Hcls|]. split; [exact Hinst|].
    rewrite (Hown "_inject_trace_context" eq_refl). split; reflexivity.
Defined.

Lemma instrument_client_twice_wraps_twice_witness :
  rpc_client (_instrument_client (_instrument_client pristine_modules)) ≫= (.!! "call")
    = Some (ClientWrapper (ClientWrapper (Native "call") "call") "call")
  ∧ rpc_client (_instrument_client (_instrument_client pristine_modules))
      ≫= (.!! "_inject_trace_context")
    = rpc_client (_instrument_client pristine_modules) ≫= (.!! "_inject_trace_context").
Proof.
  apply (instrument_client_twice_wraps_twice pristine_modules
           {[ "cast" := Native "cast"; "call" := Native "call" ]} "call" (Native "call"));
    [reflexivity | by right | reflexivity].
Defined.

Lemma uninstrument_clean_is_noop_witness :
  _uninstrument utils_unwrap pristine_modules = pristine_modules.
Proof.
  apply (uninstrument_clean_is_noop utils_unwrap utils_unwrap_keeps
           pristine_modules).
  - intros cls [= <-]. split; [|reflexivity].
    intros name a Ha.
    destruct (decide (name = "cast")) as [->|];
      [rewrite lookup_insert_eq in Ha; by simplify_eq|].
    rewrite lookup_insert_ne in Ha by done.
    destruct (decide (name = "call")) as [->|];
      [rewrite lookup_singleton_eq in Ha; by simplify_eq|].
    by rewrite lookup_singleton_ne in Ha.
  - intros cls [= <-] name a Ha.
    destruct (decide (name = "_process_incoming")) as [->|];
      [rewrite lookup_singleton_eq in Ha; by simplify_eq|].
    by rewrite lookup_singleton_ne in Ha.
Defined.

Lemma client_to_dict_failure_propagates_witness :
  _wrap_client_method ids_propagator (call_client op_ok) "call" no_target (VRef 0)
    (VStr "get_status") ∅ world_broken =
  (Raise (Exn RuntimeError "to_dict failed"),
   World (w_heap world_broken ++ [HDict {[ "trace_id" := VInt 1; "span_id" := VInt 2 ]}])
     None 3 (client_span_ops "call" no_target (VStr "get_status") ++ [OpEnd]) []).
Proof.
  apply (client_to_dict_failure_propagates ids_propagator op_ok "call" no_target
           (VStr "get_status") ∅ world_broken 0%nat broken_context
           (Exn RuntimeError "to_dict failed")
           {[ "trace_id" := VInt 1; "span_id" := VInt 2 ]});
    reflexivity.
Defined.

Lemma client_span_is_server_parent_witness :
  let client := _wrap_client_method ids_propagator (call_client op_ok) "call" no_target
                  (VRef 0) (VStr "get_status") ∅ world_loopback in
  ∃ rs ws',
    _wrap_server_process_incoming ids_propagator (call_server handler_ok) no_target
      loopback_message client.2 = (rs, ws') ∧
    w_spans ws' = w_spans client.2
                    ++ server_span_ops (Some (injection_context world_loopback)) no_target
                         (default (VStr "unknown")
                            (({[ "method" := VStr "get_status" ]} : gmap string value)
                               !! "method"))
                    ++ handled rs ++ [OpEnd] ∧
    w_calls ws' = w_calls client.2 ++ [CallServer no_target loopback_message].
Proof.
  intros client.
  apply (client_span_is_server_parent ids_propagator op_ok "call" no_target (VRef 0)
           (VStr "get_status") ∅ world_loopback client.2 client.1 3%nat
           {[ "user" := VStr "alice"; "_trace_context" := VRef 2 ]}
           handler_ok no_target loopback_message 1%nat
           {[ "method" := VStr "get_status" ]} client.2);
    [apply ids_propagator_lossless | reflexivity | apply surjective_pairing
    | reflexivity | by vm_compute | reflexivity | reflexivity | reflexivity
    | reflexivity].
Defined.
